(** * CanvasPal chat route: plan / execute / summarise orchestration

    Shallow embedding of the chat API route of CanvasPal
    (src/app/api/chat/route.ts, three revisions concatenated in
    src/unnamed/part_002).  The string helpers [stripContext]/[stripCtx]
    and [firstObject]/[firstJson] are embedded character by character; the
    POST handler of the step-executor revision is embedded as a program in
    a small state-and-exception monad whose state records every emitted
    server-sent event, every model call (with the history it was given)
    and every tool-bridge invocation.

    Strings are Stdlib [string]s; one [ascii] stands for one UTF-16 code
    unit of the JavaScript string (all markers and JSON punctuation are
    ASCII). *)

From Stdlib Require Import Strings.String Strings.Ascii Lists.List ZArith Lia
  Bool Numbers.DecimalString.
Import ListNotations.
Open Scope string_scope.

(** ** Character-level helpers *)

(** The double quote character, as a one-character string. *)
Definition dq : string := String (ascii_of_nat 34) EmptyString.

Definition chr_lbrace : ascii := "{"%char.
Definition chr_rbrace : ascii := "}"%char.

(** [String.prototype.slice(start, end)] with JavaScript's clamping of
    negative and out-of-range indices. *)
Definition js_clamp (len : nat) (k : Z) : nat :=
  if (k <? 0)%Z then Z.to_nat (Z.max (Z.of_nat len + k) 0)
  else Nat.min (Z.to_nat k) len.

Definition js_slice (s : string) (start stop : Z) : string :=
  let a := js_clamp (String.length s) start in
  let b := js_clamp (String.length s) stop in
  substring a (b - a) s.

(** [String.prototype.trim]: strips leading and trailing white space.
    Among the code units representable here those are TAB, LF, VT, FF, CR,
    SPACE and NO-BREAK SPACE (U+00A0). *)
Definition js_is_space (c : ascii) : bool :=
  let n := nat_of_ascii c in
  (Nat.leb 9 n && Nat.leb n 13) || Nat.eqb n 32 || Nat.eqb n 160.

Fixpoint trim_start (s : string) : string :=
  match s with
  | EmptyString => EmptyString
  | String c s' => if js_is_space c then trim_start s' else s
  end.

Fixpoint str_rev (s : string) : string :=
  match s with
  | EmptyString => EmptyString
  | String c s' => str_rev s' ++ String c EmptyString
  end.

Definition js_trim (s : string) : string :=
  str_rev (trim_start (str_rev (trim_start s))).

Fixpoint str_drop (n : nat) (s : string) : string :=
  match n, s with
  | O, _ => s
  | S _, EmptyString => EmptyString
  | S n', String _ s' => str_drop n' s'
  end.

(** ** Context sanitizer: [s.replace(/<!--CONTEXT[\s\S]*?CONTEXT-->/g, '')]

    The regular expression is global and its middle part is lazy: the
    engine tries the leftmost position first; at a position that starts
    with the opening marker the lazy [[\s\S]*?] makes the match end at the
    first closing marker after it.  The scan resumes right after the
    removed match. *)

Definition open_marker : string := "<!--CONTEXT".
Definition close_marker : string := "CONTEXT-->".

(** The text after the first occurrence of [close_marker] in [s]. *)
Fixpoint after_close (s : string) : option string :=
  if prefix close_marker s then Some (str_drop (String.length close_marker) s)
  else match s with
       | EmptyString => None
       | String _ s' => after_close s'
       end.

(** A match of the regular expression starting at the first character of
    [s]: the remaining text after the match. *)
Definition match_block (s : string) : option string :=
  if prefix open_marker s then after_close (str_drop (String.length open_marker) s)
  else None.

Fixpoint strip_aux (fuel : nat) (s : string) : string :=
  match fuel with
  | O => s
  | S fuel' =>
      match match_block s with
      | Some rest => strip_aux fuel' rest
      | None =>
          match s with
          | EmptyString => EmptyString
          | String c s' => String c (strip_aux fuel' s')
          end
      end
  end.

(** Every match is non-empty, so [String.length s + 1] rounds always suffice. *)
Definition stripContext (s : string) : string := strip_aux (S (String.length s)) s.

(** The first revision's [stripCtx] is the same regular expression. *)
Definition stripCtx (s : string) : string := stripContext s.

(** Whether [s] contains a complete block, i.e. the regular expression
    matches somewhere in [s]. *)
Fixpoint has_block (s : string) : bool :=
  match match_block s with
  | Some _ => true
  | None =>
      match s with
      | EmptyString => false
      | String _ s' => has_block s'
      end
  end.

(** ** JSON extractor

    [firstObject] (step-executor revision):
<<
    let depth = 0, start = -1;
    for (let i = 0; i < s.length; i++) {
        if (s[i] === '{') { if (depth === 0) start = i; depth++; }
        else if (s[i] === '}') {
            depth--;
            if (depth === 0 && start >= 0) return s.slice(start, i + 1);
        }
    }
    return null;
>>
    The loop is embedded over the unread suffix [rest] of [s], with [i]
    the index of its first character. *)

Fixpoint firstObject_go (s rest : string) (i : nat) (depth start : Z)
  : option string :=
  match rest with
  | EmptyString => None
  | String c rest' =>
      if Ascii.eqb c chr_lbrace then
        let start' := if (depth =? 0)%Z then Z.of_nat i else start in
        firstObject_go s rest' (S i) (depth + 1) start'
      else if Ascii.eqb c chr_rbrace then
        let depth' := (depth - 1)%Z in
        if (depth' =? 0)%Z && (start >=? 0)%Z
        then Some (js_slice s start (Z.of_nat i + 1))
        else firstObject_go s rest' (S i) depth' start
      else firstObject_go s rest' (S i) depth start
  end.

Definition firstObject (s : string) : option string :=
  firstObject_go s s 0 0 (-1).

(** [firstJson] (first and third revisions): the same scan without the
    [start >= 0] test, written
    [else if (txt[i] === '}' && --depth === 0) return txt.slice(start, i + 1);]
    -- the decrement only happens on a closing brace. *)

Fixpoint firstJson_go (txt rest : string) (i : nat) (depth start : Z)
  : option string :=
  match rest with
  | EmptyString => None
  | String c rest' =>
      if Ascii.eqb c chr_lbrace then
        let start' := if (depth =? 0)%Z then Z.of_nat i else start in
        firstJson_go txt rest' (S i) (depth + 1) start'
      else if Ascii.eqb c chr_rbrace then
        let depth' := (depth - 1)%Z in
        if (depth' =? 0)%Z then Some (js_slice txt start (Z.of_nat i + 1))
        else firstJson_go txt rest' (S i) depth' start
      else firstJson_go txt rest' (S i) depth start
  end.

Definition firstJson (txt : string) : option string :=
  firstJson_go txt txt 0 0 (-1).

(** Brace structure used to state the extractor's contract. *)

Fixpoint no_braces (s : string) : bool :=
  match s with
  | EmptyString => true
  | String c s' =>
      negb (Ascii.eqb c chr_lbrace) && negb (Ascii.eqb c chr_rbrace)
      && no_braces s'
  end.

Fixpoint no_lbrace (s : string) : bool :=
  match s with
  | EmptyString => true
  | String c s' => negb (Ascii.eqb c chr_lbrace) && no_lbrace s'
  end.

(** [closes_at_end r d]: scanning [r] from depth [d], the depth first
    returns to zero on the last character of [r]. *)
Fixpoint closes_at_end (r : string) (d : Z) : bool :=
  match r with
  | EmptyString => false
  | String c r' =>
      let d' := if Ascii.eqb c chr_lbrace then (d + 1)%Z
                else if Ascii.eqb c chr_rbrace then (d - 1)%Z else d in
      if (d' =? 0)%Z then match r' with EmptyString => true | _ => false end
      else closes_at_end r' d'
  end.

(** A brace-balanced object: an opening brace whose matching closing brace
    is the last character. *)
Definition balanced_object (o : string) : bool :=
  match o with
  | String c r => Ascii.eqb c chr_lbrace && closes_at_end r 1
  | EmptyString => false
  end.

(** ** JSON values and the JavaScript operations the route applies to them

    Numbers are integers ([Z]): the route never does arithmetic on JSON
    numbers, it only tests them for truthiness and prints them.  An object
    is the list of its members in insertion order. *)

#[local] Set Warnings "-register-all".
Inductive json : Type :=
| JNull
| JBool (b : bool)
| JNum (n : Z)
| JStr (s : string)
| JArr (items : list json)
| JObj (members : list (string * json)).

(** Property read [v.k]; [None] is [undefined].  [JSON.parse] keeps the
    last of duplicated keys. *)
Fixpoint assoc_last (k : string) (fs : list (string * json)) : option json :=
  match fs with
  | [] => None
  | (k', v) :: fs' =>
      match assoc_last k fs' with
      | Some v' => Some v'
      | None => if String.eqb k k' then Some v else None
      end
  end.

Definition js_get (v : json) (k : string) : option json :=
  match v with
  | JObj fs => assoc_last k fs
  | _ => None
  end.

(** JavaScript truthiness of a JSON value. *)
Definition js_truthy (v : json) : bool :=
  match v with
  | JNull => false
  | JBool b => b
  | JNum n => negb (n =? 0)%Z
  | JStr s => negb (String.eqb s "")
  | JArr _ | JObj _ => true
  end.

Definition js_truthy_opt (v : option json) : bool :=
  match v with Some v => js_truthy v | None => false end.

(** [v ?? d] *)
Definition nullish (v : option json) (d : json) : json :=
  match v with
  | None | Some JNull => d
  | Some v => v
  end.

Definition nl : string := String (ascii_of_nat 10) EmptyString.

Definition Z_to_string (n : Z) : string := NilEmpty.string_of_int (Z.to_int n).

Fixpoint join (sep : string) (l : list string) : string :=
  match l with
  | [] => ""
  | [x] => x
  | x :: l' => x ++ sep ++ join sep l'
  end.

(** [String(v)], as used by the template literal [`${tool}`]. *)
Fixpoint js_to_string (v : json) : string :=
  match v with
  | JNull => "null"
  | JBool true => "true"
  | JBool false => "false"
  | JNum n => Z_to_string n
  | JStr s => s
  | JArr items =>
      join "," (map (fun x => match x with
                              | JNull => ""
                              | _ => js_to_string x
                              end) items)
  | JObj _ => "[object Object]"
  end.

(** [JSON.stringify] (compact form). *)
Definition hex_digit (n : nat) : ascii :=
  if Nat.ltb n 10 then ascii_of_nat (48 + n) else ascii_of_nat (87 + n).

Definition escape_char (c : ascii) : string :=
  let n := nat_of_ascii c in
  if Nat.eqb n 34 then String "\"%char (String "\"%char EmptyString)
  else if Nat.eqb n 92 then String "\"%char (String "\"%char EmptyString)
  else if Nat.eqb n 8 then "\b"
  else if Nat.eqb n 12 then "\f"
  else if Nat.eqb n 10 then "\n"
  else if Nat.eqb n 13 then "\r"
  else if Nat.eqb n 9 then "\t"
  else if Nat.ltb n 32 then
    "\u00" ++ String (hex_digit (n / 16)) (String (hex_digit (n mod 16)) EmptyString)
  else String c EmptyString.

Fixpoint escape_string (s : string) : string :=
  match s with
  | EmptyString => EmptyString
  | String c s' => escape_char c ++ escape_string s'
  end.

Definition quote (s : string) : string :=
  String "034"%char (escape_string s ++ String "034"%char EmptyString).

Fixpoint stringify (v : json) : string :=
  match v with
  | JNull => "null"
  | JBool true => "true"
  | JBool false => "false"
  | JNum n => Z_to_string n
  | JStr s => quote s
  | JArr items => "[" ++ join "," (map stringify items) ++ "]"
  | JObj fs =>
      "{" ++ join "," (map (fun kv => quote (fst kv) ++ ":" ++ stringify (snd kv)) fs)
      ++ "}"
  end.


(** ** Messages, logs, events *)

Inductive role := RoleSystem | RoleUser | RoleAssistant.

(** [type Msg = { role; content: string }] *)
Record msg := mkMsg { msg_role : role; msg_content : string }.

(** [type ToolLogEntry = { tool: string; params?: Params; result: unknown }];
    [tl_params = None] is an [undefined] [act.params], which
    [JSON.stringify] omits. *)
Record tool_log_entry :=
  mkToolLog { tl_tool : json; tl_params : option json; tl_result : json }.

(** [type StepLogEntry = { step: string; output: string }] *)
Record step_log_entry := mkStepLog { sl_step : json; sl_output : json }.

Definition tool_log_json (e : tool_log_entry) : json :=
  JObj (app [("tool", tl_tool e)]
        (app (match tl_params e with Some p => [("params", p)] | None => [] end)
        [("result", tl_result e)])).

Definition step_log_json (e : step_log_entry) : json :=
  JObj [("step", sl_step e); ("output", sl_output e)].

(** The [message] of the [status] events. *)
Inductive status_msg :=
| StatusPlanning                    (* 'Planning…' *)
| StatusStep (k n : nat)            (* `Step ${i + 1}/${steps.length}` *)
| StatusFinalising.                 (* 'Finalising…' *)

(** The typed server-sent events [data: {type, ...}]; a [false] [error]
    flag stands for an absent [error] field.  [EvSummaryChunk] belongs to
    the streaming revisions' vocabulary. *)
Inductive event :=
| EvStatus (message : status_msg)
| EvPlan (plan : option (list json))
| EvStep (index : nat) (step : json) (output : json)
| EvSummaryChunk (delta : string)
| EvSummary (summary : string) (complete_all : bool) (error : bool).

(** One frame of the response stream: an event, or the [data: [DONE]]
    end marker. *)
Inductive frame := Ev (e : event) | DoneMarker.

(** The system prompt of a model call, given by the values the route
    substitutes into its template. *)
Inductive prompt :=
| PromptPlan (userQuery : string)
| PromptExecute (userQuery : string) (planJson : list json) (currentStep : nat)
    (toolsLog : list tool_log_entry) (stepsLog : list step_log_entry)
| PromptSummary (userQuery : string) (stepsLog : list step_log_entry).

Record llm_call := mkCall { call_prompt : prompt; call_history : list msg }.

(** ** The external capabilities

    The language model answers the [n]-th call of the request with a text
    or fails ([callLLM] throws on a non-OK response); the Python tool
    bridge ([execSync('python3 tool_caller.py')]) prints a text or fails
    (non-zero exit, spawn error, buffer overflow: [execSync] throws);
    [JSON.parse] yields a value or throws. *)

Inductive llm_reply := LLMText (content : string) | LLMFail (message : string).
Inductive bridge_out := BridgeOut (stdout : string) | BridgeFail (message : string).

Record world := mkWorld {
  w_parse : string -> option json;
  w_tool : json -> json -> bridge_out;
  w_llm : nat -> llm_reply
}.

(** ** A state-and-exception monad for the request handler

    The state records the emitted frames, the model calls made (prompt
    and history), the tool-bridge invocations, and the number of model
    calls so far.  [OutOfFuel] marks a run cut off by the fuel bound on
    the loop iterations, i.e. one that has not finished. *)

Record st := mkSt {
  st_frames : list frame;
  st_calls : list llm_call;
  st_tools : list (json * json);
  st_ncall : nat
}.

Definition st_init : st := mkSt [] [] [] 0.

Inductive outcome (A : Type) :=
| Ret (a : A)
| Throw (message : string)
| OutOfFuel.
Arguments Ret {A} a.
Arguments Throw {A} message.
Arguments OutOfFuel {A}.

Definition M (A : Type) : Type := st -> outcome A * st.

Definition ret {A} (a : A) : M A := fun s => (Ret a, s).
Definition throw {A} (m : string) : M A := fun s => (Throw m, s).
Definition out_of_fuel {A} : M A := fun s => (OutOfFuel, s).

Definition bind {A B} (m : M A) (k : A -> M B) : M B :=
  fun s => match m s with
           | (Ret a, s') => k a s'
           | (Throw e, s') => (Throw e, s')
           | (OutOfFuel, s') => (OutOfFuel, s')
           end.

Notation "x <- m ;; k" := (bind m (fun x => k))
  (at level 61, m at next level, right associativity).
Notation "m ;;; k" := (bind m (fun _ => k))
  (at level 61, right associativity).

Definition enqueue_frame (f : frame) : M unit :=
  fun s => (Ret tt, mkSt (app (st_frames s) [f]) (st_calls s) (st_tools s) (st_ncall s)).

(** [enqueue(type, data)] *)
Definition enqueue (e : event) : M unit := enqueue_frame (Ev e).

Section Route.

Variable w : world.

(** [callLLM(prompt, history)] *)
Definition callLLM (p : prompt) (history : list msg) : M string :=
  fun s =>
    let s' := mkSt (st_frames s) (app (st_calls s) [mkCall p history]) (st_tools s)
                (S (st_ncall s)) in
    match w_llm w (st_ncall s) with
    | LLMText t => (Ret t, s')
    | LLMFail e => (Throw e, s')
    end.

(** The value [runTool] returns once the bridge printed [raw]:
<<
    try { return JSON.parse(raw); }
    catch { return { error: `Invalid JSON from ${tool}`, raw }; }
>> *)
Definition tool_output (tool : json) (raw : string) : json :=
  match w_parse w raw with
  | Some v => v
  | None => JObj [("error", JStr ("Invalid JSON from " ++ js_to_string tool));
                  ("raw", JStr raw)]
  end.

(** [runTool(tool, params)]: [execSync] throws on a bridge failure. *)
Definition runTool (tool params : json) : M json :=
  fun s =>
    let s' := mkSt (st_frames s) (st_calls s) (app (st_tools s) [(tool, params)])
                (st_ncall s) in
    match w_tool w tool params with
    | BridgeOut raw => (Ret (tool_output tool raw), s')
    | BridgeFail e => (Throw e, s')
    end.

(** [history.map(m => ({ role: m.role, content: stripContext(m.content) }))] *)
Definition clean_history (history : list msg) : list msg :=
  map (fun m => mkMsg (msg_role m) (stripContext (msg_content m))) history.

(** [{ steps?: string[]; direct?: string }] *)
Record plan_res := mkPlanRes { pr_steps : option (list json); pr_direct : option string }.

(** The decision [getPlan] takes on the model's text [planTxt]. *)
Definition plan_of_text (planTxt : string) : plan_res :=
  let direct := mkPlanRes None (Some (js_trim (stripContext planTxt))) in
  match firstObject planTxt with
  | Some objStr =>
      if String.eqb objStr "" then direct
      else match w_parse w objStr with
           | Some obj =>
               match js_get obj "steps" with
               | Some (JArr (x :: xs)) => mkPlanRes (Some (x :: xs)) None
               | _ => direct
               end
           | None => direct
           end
  | None => direct
  end.

(** [getPlan(query, history)] *)
Definition getPlan (query : string) (history : list msg) : M plan_res :=
  planTxt <- callLLM (PromptPlan query) (clean_history history) ;;
  ret (plan_of_text planTxt).

(** The decision [execStep] takes on the model's text [raw]: the parsed
    object, or the prose fallback [{ result: stripContext(raw).trim(),
    done: true }]. *)
Definition step_act (raw : string) : json :=
  let fallback := JObj [("result", JStr (js_trim (stripContext raw)));
                        ("done", JBool true)] in
  match firstObject raw with
  | Some jsonStr =>
      if String.eqb jsonStr "" then fallback
      else match w_parse w jsonStr with
           | Some v => v
           | None => fallback
           end
  | None => fallback
  end.

(** [execStep({ i, steps, toolsLog, stepsLog, query, history })] *)
Definition execStep (i : nat) (steps : list json) (toolsLog : list tool_log_entry)
    (stepsLog : list step_log_entry) (query : string) (history : list msg) : M json :=
  raw <- callLLM (PromptExecute query steps i toolsLog stepsLog) (clean_history history) ;;
  ret (step_act raw).

(** [act.tool] when truthy. *)
Definition tool_of (act : json) : option json :=
  match js_get act "tool" with
  | Some t => if js_truthy t then Some t else None
  | None => None
  end.

(** The step loop of [POST]:
<<
    outer: for (let i = 0; i < steps.length; i++) {
        enqueue('status', { message: `Step ${i + 1}/${steps.length}` });
        const act = await execStep({ i, steps, toolsLog, stepsLog, query, history: messages });
        if (act.tool) {
            const result = runTool(act.tool, act.params ?? {});
            toolsLog.push({ tool: act.tool, params: act.params, result });
            i--; continue;
        }
        stepsLog.push({ step: steps[i], output: act.result ?? '' });
        enqueue('step', { index: i, step: steps[i], output: act.result ?? '' });
        if (act.done || i === steps.length - 1) break outer;
    }
>>
    One unit of fuel per iteration; the loop has no bound of its own. *)
Fixpoint exec_loop (fuel : nat) (query : string) (messages : list msg)
    (steps : list json) (i : nat) (toolsLog : list tool_log_entry)
    (stepsLog : list step_log_entry)
  : M (list tool_log_entry * list step_log_entry) :=
  match fuel with
  | O => out_of_fuel
  | S fuel' =>
      if Nat.ltb i (length steps) then
        enqueue (EvStatus (StatusStep (S i) (length steps))) ;;;
        act <- execStep i steps toolsLog stepsLog query messages ;;
        match tool_of act with
        | Some tool =>
            result <- runTool tool (nullish (js_get act "params") (JObj [])) ;;
            exec_loop fuel' query messages steps i
              (app toolsLog [mkToolLog tool (js_get act "params") result]) stepsLog
        | None =>
            let output := nullish (js_get act "result") (JStr "") in
            let stepsLog' := app stepsLog [mkStepLog (nth i steps JNull) output] in
            enqueue (EvStep i (nth i steps JNull) output) ;;;
            if js_truthy_opt (js_get act "done") || Nat.eqb i (length steps - 1)
            then ret (toolsLog, stepsLog')
            else exec_loop fuel' query messages steps (S i) toolsLog stepsLog'
        end
      else ret (toolsLog, stepsLog)
  end.

(** [`<!--CONTEXT\n${JSON.stringify({ stepsLog, toolsLog })}\nCONTEXT-->`] *)
Definition hidden_block (toolsLog : list tool_log_entry)
    (stepsLog : list step_log_entry) : string :=
  "<!--CONTEXT" ++ nl
  ++ stringify (JObj [("stepsLog", JArr (map step_log_json stepsLog));
                      ("toolsLog", JArr (map tool_log_json toolsLog))])
  ++ nl ++ "CONTEXT-->".

(** [`⚠️ ${msg}`]: the warning sign U+26A0 U+FE0F lies outside the
    alphabet of this model; its UTF-8 bytes stand for it. *)
Definition warn_prefix : string :=
  String (ascii_of_nat 226) (String (ascii_of_nat 154) (String (ascii_of_nat 160)
  (String (ascii_of_nat 239) (String (ascii_of_nat 184) (String (ascii_of_nat 143)
  " "))))).

Definition undefined_length_error : string :=
  "Cannot read properties of undefined (reading 'length')".

(** [messages.at(-1)?.content.trim() || '']: an empty trimmed content is
    replaced by [''], i.e. stays empty. *)
Definition query_of (messages : list msg) : string :=
  match rev messages with
  | m :: _ => js_trim (msg_content m)
  | [] => ""
  end.

(** The body of the [try] block of [start(ctrl)]. *)
Definition post_body (fuel : nat) (messages : list msg) : M unit :=
  let query := query_of messages in
  enqueue (EvStatus StatusPlanning) ;;;
  planRes <- getPlan query messages ;;
  match pr_direct planRes with
  | Some d =>
      if negb (String.eqb d "") then
        enqueue (EvSummary d true false) ;;; enqueue_frame DoneMarker
      else
        enqueue (EvPlan (pr_steps planRes)) ;;;
        throw undefined_length_error
  | None =>
      enqueue (EvPlan (pr_steps planRes)) ;;;
      match pr_steps planRes with
      | None => throw undefined_length_error
      | Some steps =>
          logs <- exec_loop fuel query messages steps 0 [] [] ;;
          let '(toolsLog, stepsLog) := logs in
          enqueue (EvStatus StatusFinalising) ;;;
          summary <- callLLM (PromptSummary query stepsLog) messages ;;
          enqueue (EvSummary (summary ++ nl ++ nl ++ hidden_block toolsLog stepsLog)
                     true false) ;;;
          enqueue_frame DoneMarker
      end
  end.

(** [POST] on a request with body [{ messages }]: the [try] body, and on
    an exception the [catch] block's error summary.  The final state holds
    the response stream. *)
Definition POST (fuel : nat) (messages : list msg) : st :=
  match post_body fuel messages st_init with
  | (Ret _, s) => s
  | (Throw e, s) =>
      snd ((enqueue (EvSummary (warn_prefix ++ e) true true) ;;;
            enqueue_frame DoneMarker) s)
  | (OutOfFuel, s) => s
  end.

End Route.

(** The history the third revision forwards to every model call:
    [messages.slice(-MAX_HISTORY).map(m => ({ role, content: stripCtx(content) }))]. *)
Definition MAX_HISTORY : nat := 10.

Definition history_v3 (messages : list msg) : list msg :=
  map (fun m => mkMsg (msg_role m) (stripCtx (msg_content m)))
      (skipn (length messages - MAX_HISTORY) messages).

(** The client's rendering of a chat message (ChatMessage.tsx):
    [content.replace(/<!--CONTEXT[\s\S]*?CONTEXT-->/g, '').replace(/\r\n/g, '\n').trim()]. *)
Fixpoint replace_crlf (s : string) : string :=
  match s with
  | String c ((String d s') as rest) =>
      if Nat.eqb (nat_of_ascii c) 13 && Nat.eqb (nat_of_ascii d) 10
      then String d (replace_crlf s')
      else String c (replace_crlf rest)
  | _ => s
  end.

Definition chat_display (content : string) : string :=
  js_trim (replace_crlf (stripContext content)).

(** The typed events of a stream, without [status] events and the end
    marker. *)
Fixpoint typed_events (fs : list frame) : list event :=
  match fs with
  | [] => []
  | Ev (EvStatus _) :: fs' => typed_events fs'
  | Ev e :: fs' => e :: typed_events fs'
  | DoneMarker :: fs' => typed_events fs'
  end.

(** A JSON.parse given by a table of texts and their values, for concrete
    runs. *)
Definition table_parse (tbl : list (string * json)) (s : string) : option json :=
  match find (fun kv => String.eqb (fst kv) s) tbl with
  | Some (_, v) => Some v
  | None => None
  end.

Definition replies (l : list llm_reply) (n : nat) : llm_reply :=
  nth n l (LLMFail "no reply").

(** The state of the step loop after an iteration's status event and model
    call at index [i]. *)
Definition after_call (query : string) (messages : list msg) (steps : list json)
    (s : st) (i : nat) (tl : list tool_log_entry) (sl : list step_log_entry) : st :=
  mkSt (app (st_frames s) [Ev (EvStatus (StatusStep (S i) (length steps)))])
       (app (st_calls s) [mkCall (PromptExecute query steps i tl sl)
                                 (clean_history messages)])
       (st_tools s) (S (st_ncall s)).

(** The [step] events and step-log entries of the indices [i],
    [i + 1], ... with outputs [outs]. *)
Fixpoint step_events (steps : list json) (i : nat) (outs : list json) : list event :=
  match outs with
  | [] => []
  | o :: os => EvStep i (nth i steps JNull) o :: step_events steps (S i) os
  end.

Fixpoint step_logs (steps : list json) (i : nat) (outs : list json)
  : list step_log_entry :=
  match outs with
  | [] => []
  | o :: os => mkStepLog (nth i steps JNull) o :: step_logs steps (S i) os
  end.

(** The model's [n]-th answer asks for a tool that the bridge runs. *)
Definition tool_reply_at (w : world) (n : nat) : Prop :=
  exists raw t out,
    w_llm w n = LLMText raw /\ tool_of (step_act w raw) = Some t
    /\ w_tool w t (nullish (js_get (step_act w raw) "params") (JObj [])) = BridgeOut out.

(** The model's [n]-th answer is text without a truthy [tool]. *)
Definition nontool_reply_at (w : world) (n : nat) : Prop :=
  exists raw, w_llm w n = LLMText raw /\ tool_of (step_act w raw) = None.

(** The test that ends the loop after a finished index:
    [act.done || i === steps.length - 1]. *)
Definition loop_stops (steps : list json) (i : nat) (act : json) : bool :=
  js_truthy_opt (js_get act "done") || Nat.eqb i (length steps - 1).

(** The termination condition of the step loop, index by index.  Index
    [i], reached at the model's [n]-th call, eventually gets an answer
    without a truthy [tool]: the first such answer comes at a call
    [m >= n], every answer before it asking for a tool that the bridge
    runs.  Then the loop either stops ([loop_stops]) or reaches index
    [i + 1] at call [m + 1], for which the same holds.  An index past the
    plan ends the loop. *)
Inductive answered (w : world) (steps : list json) : nat -> nat -> Prop :=
| answered_end (i n : nat) : length steps <= i -> answered w steps i n
| answered_stop (i n m : nat) (raw : string) :
    i < length steps -> n <= m ->
    (forall k, n <= k -> k < m -> tool_reply_at w k) ->
    w_llm w m = LLMText raw -> tool_of (step_act w raw) = None ->
    loop_stops steps i (step_act w raw) = true ->
    answered w steps i n
| answered_next (i n m : nat) (raw : string) :
    i < length steps -> n <= m ->
    (forall k, n <= k -> k < m -> tool_reply_at w k) ->
    w_llm w m = LLMText raw -> tool_of (step_act w raw) = None ->
    loop_stops steps i (step_act w raw) = false ->
    answered w steps (S i) (S m) ->
    answered w steps i n.

(** The state after the planning phase produced [steps]: the [planning]
    status, the [plan] event and the plan call. *)
Definition plan_state (messages : list msg) (steps : list json) : st :=
  mkSt [Ev (EvStatus StatusPlanning); Ev (EvPlan (Some steps))]
       [mkCall (PromptPlan (query_of messages)) (clean_history messages)] [] 1.

(** Whether [pat] occurs in [s] at some position. *)
Fixpoint contains (pat s : string) : bool :=
  prefix pat s || match s with
                  | EmptyString => false
                  | String _ s' => contains pat s'
                  end.

(** Whether the character [c] does not occur in [s]. *)
Fixpoint char_free (c : ascii) (s : string) : bool :=
  match s with
  | EmptyString => true
  | String d s' => negb (Ascii.eqb c d) && char_free c s'
  end.

(** The JSON text of the hidden block. *)
Definition logs_text (toolsLog : list tool_log_entry) (stepsLog : list step_log_entry)
  : string :=
  stringify (JObj [("stepsLog", JArr (map step_log_json stepsLog));
                   ("toolsLog", JArr (map tool_log_json toolsLog))]).

(** ** Concrete requests *)

(** A JSON string literal. *)
Definition jq (s : string) : string := dq ++ s ++ dq.

(** Model and bridge texts of the examples, and the values [JSON.parse]
    gives them. *)
Definition plan_ab : string :=
  "{" ++ jq "steps" ++ ":[" ++ jq "a" ++ "," ++ jq "b" ++ "]}".
Definition tool_null_r : string :=
  "{" ++ jq "tool" ++ ":null," ++ jq "result" ++ ":" ++ jq "r" ++ "}".
Definition result_s : string := "{" ++ jq "result" ++ ":" ++ jq "s" ++ "}".
Definition tool_gc : string := "{" ++ jq "tool" ++ ":" ++ jq "get_courses" ++ "}".
Definition done_r : string :=
  "{" ++ jq "result" ++ ":" ++ jq "r" ++ "," ++ jq "done" ++ ":true}".
Definition leak_r : string :=
  "{" ++ jq "result" ++ ":" ++ jq "xCONTEXT-->y" ++ "," ++ jq "done" ++ ":true}".

Definition ex_parse : string -> option json :=
  table_parse
    [(plan_ab, JObj [("steps", JArr [JStr "a"; JStr "b"])]);
     (tool_null_r, JObj [("tool", JNull); ("result", JStr "r")]);
     (result_s, JObj [("result", JStr "s")]);
     (tool_gc, JObj [("tool", JStr "get_courses")]);
     (done_r, JObj [("result", JStr "r"); ("done", JBool true)]);
     (leak_r, JObj [("result", JStr "xCONTEXT-->y"); ("done", JBool true)]);
     ("[]", JArr [])].

(** A bridge that prints [[]], one that prints a Python traceback, and one
    whose process fails. *)
Definition bridge_ok (_ _ : json) : bridge_out := BridgeOut "[]".
Definition bridge_text (_ _ : json) : bridge_out := BridgeOut "Traceback".
Definition bridge_fail (_ _ : json) : bridge_out :=
  BridgeFail "Command failed: python3 tool_caller.py".

Definition ex_world (bridge : json -> json -> bridge_out) (rs : list llm_reply) : world :=
  mkWorld ex_parse bridge (replies rs).

Definition ex_msgs : list msg := [mkMsg RoleUser "What are my courses?"].

(** Eleven user messages. *)
Definition ex_msgs11 : list msg := repeat (mkMsg RoleUser "hi") 11.

(** A request whose plan has two steps and whose first step reply is
    marked [done]. *)
Definition ex_w2 : world := ex_world bridge_ok [LLMText plan_ab; LLMText done_r; LLMText "Sum"].

Definition ex_summary2 : string :=
  "Sum" ++ nl ++ nl ++ hidden_block [] [mkStepLog (JStr "a") (JStr "r")].

(** A model that answers every call with text: a tool call first, then a
    final result. *)
Definition ex_world_text : world :=
  mkWorld ex_parse bridge_ok
    (fun n => if Nat.eqb n 0 then LLMText tool_gc else LLMText done_r).

(** A model whose first answer finishes with [done] and which asks for a
    tool at every later call. *)
Definition ex_world_done_tools : world :=
  mkWorld ex_parse bridge_ok
    (fun n => if Nat.eqb n 0 then LLMText done_r else LLMText tool_gc).

(** A conversation whose assistant turn carries a hidden block with the
    given contents. *)
Definition ex_ctx_msgs (inside : string) : list msg :=
  [mkMsg RoleUser "What are my courses?";
   mkMsg RoleAssistant ("Algorithms." ++ nl ++ nl ++ "<!--CONTEXT" ++ nl ++ inside
                        ++ nl ++ "CONTEXT-->");
   mkMsg RoleUser "And my grades?"].

(** ** Streamed model replies: [streamLLM] (first and third revisions)

    The response body is read chunk by chunk; the model's input is the
    list of decoded text chunks [dec.decode(value, { stream: true })].
<<
    buf += dec.decode(value, { stream: true });
    const lines = buf.split(/\r?\n/);
    buf = lines.pop()!;
    for (const line of lines) {
        if (!line.startsWith('data: ')) continue;
        const payload = line.slice(6).trim();
        if (payload === '[DONE]') return;
        try {
            const j = JSON.parse(payload);
            const delta = j.choices?.[0]?.delta?.content;
            if (delta) yield delta;
        } catch { }
    }
>>
    and, once the body is exhausted, the same treatment of the rest of
    [buf] (where [[DONE]] yields nothing). *)

Definition LF : ascii := ascii_of_nat 10.
Definition CR : ascii := ascii_of_nat 13.

(** [s.split(/\r?\n/)] as the pieces followed by a line break and the
    last piece; the [\r] of a [\r\n] break is removed by [drop_cr]. *)
Fixpoint lines_of (s : string) : list string * string :=
  match s with
  | EmptyString => ([], EmptyString)
  | String c s' =>
      let (ls, r) := lines_of s' in
      if Ascii.eqb c LF then (EmptyString :: ls, r)
      else match ls with
           | [] => ([], String c r)
           | l :: ls' => (String c l :: ls', r)
           end
  end.

Fixpoint drop_cr (s : string) : string :=
  match s with
  | EmptyString => EmptyString
  | String c EmptyString => if Ascii.eqb c CR then EmptyString else s
  | String c s' => String c (drop_cr s')
  end.

(** [v?.[0]] and [v?.k] on an optional value. *)
Definition opt_index0 (v : option json) : option json :=
  match v with
  | Some (JArr (x :: _)) => Some x
  | Some (JObj fs) => assoc_last "0" fs
  | Some (JStr (String c _)) => Some (JStr (String c EmptyString))
  | _ => None
  end.

Definition opt_get (v : option json) (k : string) : option json :=
  match v with Some v => js_get v k | None => None end.

(** [j.choices?.[0]?.delta?.content]; reading [choices] of [null] throws,
    which the [catch] ignores, as it does an absent delta. *)
Definition chunk_delta (j : json) : option json :=
  opt_get (opt_get (opt_index0 (js_get j "choices")) "delta") "content".

(** What one payload yields. *)
Definition payload_deltas (parse : string -> option json) (payload : string) : list json :=
  match parse payload with
  | Some j =>
      match chunk_delta j with
      | Some d => if js_truthy d then [d] else []
      | None => []
      end
  | None => []
  end.

Definition data_prefix : string := "data: ".

(** The [for (const line of lines)] loop: the deltas it yields and whether
    it reached [return]. *)
Fixpoint sse_lines (parse : string -> option json) (ls : list string) : list json * bool :=
  match ls with
  | [] => ([], false)
  | l :: ls' =>
      if prefix data_prefix l then
        let payload := js_trim (str_drop 6 l) in
        if String.eqb payload "[DONE]" then ([], true)
        else let (ds, stop) := sse_lines parse ls' in (app (payload_deltas parse payload) ds, stop)
      else sse_lines parse ls'
  end.

(** The treatment of the rest of [buf] after the last chunk. *)
Definition sse_flush (parse : string -> option json) (buf : string) : list json :=
  if prefix data_prefix buf then
    let payload := js_trim (str_drop 6 buf) in
    if String.eqb payload "[DONE]" then [] else payload_deltas parse payload
  else [].

Fixpoint sse_go (parse : string -> option json) (buf : string) (chunks : list string)
  : list json :=
  match chunks with
  | [] => sse_flush parse buf
  | c :: cs =>
      let (ls, r) := lines_of (buf ++ c) in
      let (ds, stop) := sse_lines parse (map drop_cr ls) in
      if stop then ds else app ds (sse_go parse r cs)
  end.

(** The deltas [streamLLM] yields for a response body read as [chunks]. *)
Definition streamLLM_deltas (parse : string -> option json) (chunks : list string)
  : list json :=
  sse_go parse "" chunks.

(** The text of the response body: the chunks one after the other. *)
Fixpoint concat_all (l : list string) : string :=
  match l with
  | [] => ""
  | x :: l' => x ++ concat_all l'
  end.

(** ** The third revision's tool runner

<<
    let systemCtx: Record<string, unknown> = {};
    try {
        const raw = messages.find(m => m.role === 'system')?.content;
        if (raw) systemCtx = JSON.parse(raw);
    } catch {}
    function runTool(tool: string, params: Params = {}): unknown {
        if (tool === 'get_courses' && Array.isArray(systemCtx.courses)) {
            return systemCtx.courses;
        }
        const raw = execSync('python3 tool_caller.py', { input: JSON.stringify({ tool, params }), ... });
        try { return JSON.parse(raw); } catch { return raw; }
    }
>> *)

(** [messages.find(m => m.role === 'system')?.content] *)
Fixpoint first_system (messages : list msg) : option string :=
  match messages with
  | [] => None
  | m :: ms =>
      match msg_role m with
      | RoleSystem => Some (msg_content m)
      | _ => first_system ms
      end
  end.

Definition system_ctx (w : world) (messages : list msg) : json :=
  match first_system messages with
  | Some raw =>
      if String.eqb raw "" then JObj []
      else match w_parse w raw with
           | Some v => v
           | None => JObj []
           end
  | None => JObj []
  end.

(** The [TypeError] of reading [courses] of a [null] context. *)
Definition null_courses_error : string :=
  "Cannot read properties of null (reading 'courses')".

(** The bridge call of [runTool] (third revision): its output parsed, or
    the raw text when it is not JSON. *)
Definition bridge_v3 (w : world) (tool params : json) : M json :=
  fun s =>
    let s' := mkSt (st_frames s) (st_calls s) (app (st_tools s) [(tool, params)])
                (st_ncall s) in
    match w_tool w tool params with
    | BridgeOut raw =>
        (Ret (match w_parse w raw with Some v => v | None => JStr raw end), s')
    | BridgeFail e => (Throw e, s')
    end.

Definition runTool_v3 (w : world) (systemCtx : json) (tool params : json) : M json :=
  match tool with
  | JStr t =>
      if String.eqb t "get_courses" then
        match systemCtx with
        | JNull => throw null_courses_error
        | _ =>
            match js_get systemCtx "courses" with
            | Some (JArr cs) => ret (JArr cs)
            | _ => bridge_v3 w tool params
            end
        end
      else bridge_v3 w tool params
  | _ => bridge_v3 w tool params
  end.

(** ** Facts used to state properties of the second revision *)

(** A frame the handler emits before its final [summary]: a [status],
    [plan] or [step] event. *)
Definition progress_frame (f : frame) : bool :=
  match f with
  | Ev (EvStatus _) | Ev (EvPlan _) | Ev (EvStep _ _ _) => true
  | _ => false
  end.

(** The bridge invocation a tool-log entry stands for: [runTool(act.tool,
    act.params ?? {})]. *)
Definition bridge_call (e : tool_log_entry) : json * json :=
  (tl_tool e, nullish (tl_params e) (JObj [])).

(** Whether every character of [s] is printable (code 32 or above). *)
Fixpoint no_ctrl (s : string) : bool :=
  match s with
  | EmptyString => true
  | String c s' => Nat.leb 32 (nat_of_ascii c) && no_ctrl s'
  end.

(** A tool-log entry whose tool the bridge ran: the bridge printed [out]
    for the entry's tool and parameters, and the entry's result is what
    [runTool] made of [out]. *)
Definition bridge_ran (w : world) (e : tool_log_entry) : Prop :=
  exists out, w_tool w (tl_tool e) (snd (bridge_call e)) = BridgeOut out
              /\ tl_result e = tool_output w (tl_tool e) out.

(** ** Further concrete runs *)

(** A [JSON.parse] for concrete streamed response bodies. *)
Definition ex_sse_parse : string -> option json :=
  table_parse
    [("A", JObj [("choices", JArr [JObj [("delta", JObj [("content", JStr "Hel")])]])]);
     ("B", JObj [("choices", JArr [JObj [("delta", JObj [("content", JStr "lo")])]])])].

(** One response body, cut into chunks inside a line and as a whole. *)
Definition ex_body_split : list string :=
  ["data: A" ++ nl ++ "dat"; "a: B" ++ nl; "data: [DONE]" ++ nl].

Definition ex_body_whole : list string :=
  ["data: A" ++ nl ++ "data: B" ++ nl ++ "data: [DONE]" ++ nl].

(** A request whose first step asks for [get_courses] once and then
    finishes with [done]. *)
Definition ex_w_tool : world :=
  ex_world bridge_ok [LLMText plan_ab; LLMText tool_gc; LLMText done_r; LLMText "Sum"].

Definition ex_summary_tool : string :=
  "Sum" ++ nl ++ nl ++ hidden_block [mkToolLog (JStr "get_courses") None (JArr [])]
                                     [mkStepLog (JStr "a") (JStr "r")].

(** A system message carrying a course list, and conversations that start
    with a given system message. *)
Definition ctx_courses : string := "{" ++ jq "courses" ++ ":[" ++ jq "CS101" ++ "]}".

Definition ex_v3_world (bridge : json -> json -> bridge_out) : world :=
  mkWorld (table_parse [(ctx_courses, JObj [("courses", JArr [JStr "CS101"])]);
                        ("null", JNull)])
          bridge (replies []).

Definition ex_sys_msgs (sys : string) : list msg :=
  [mkMsg RoleSystem sys; mkMsg RoleUser "What are my courses?"].

(* ================================================================== *)
(** * Proofs *)
(* ================================================================== *)

(** ** Sanitizer *)

Lemma has_block_cons (c : ascii) (s : string) :
  has_block (String c s)
  = match match_block (String c s) with
    | Some _ => true
    | None => has_block s
    end.
Proof. reflexivity. Qed.

Lemma strip_aux_cons (n : nat) (c : ascii) (s : string) :
  strip_aux (S n) (String c s)
  = match match_block (String c s) with
    | Some rest => strip_aux n rest
    | None => String c (strip_aux n s)
    end.
Proof. reflexivity. Qed.

Lemma strip_aux_no_block (s : string) (n : nat) :
  has_block s = false -> strip_aux n s = s.
Proof.
  revert n; induction s as [|c s IH]; intros n Hb; destruct n as [|n];
    try reflexivity.
  rewrite has_block_cons in Hb. rewrite strip_aux_cons.
  destruct (match_block (String c s)); [discriminate|].
  rewrite IH by exact Hb. reflexivity.
Qed.

(** ** Extractor *)

Lemma js_clamp_in_range (len k : nat) :
  k <= len -> js_clamp len (Z.of_nat k) = k.
Proof.
  intros Hk. unfold js_clamp.
  destruct (Z.of_nat k <? 0)%Z eqn:E; [apply Z.ltb_lt in E; lia|].
  rewrite Nat2Z.id. lia.
Qed.

Lemma substring_app_l (p t : string) (m : nat) :
  substring (String.length p) m (p ++ t) = substring 0 m t.
Proof.
  induction p as [|c p IH]; simpl; [reflexivity|].
  exact IH.
Qed.

Lemma substring_prefix (o q : string) :
  substring 0 (String.length o) (o ++ q) = o.
Proof.
  induction o as [|c o IH]; simpl.
  - destruct q; reflexivity.
  - rewrite IH. reflexivity.
Qed.

Lemma length_app_str (s t : string) :
  String.length (s ++ t) = String.length s + String.length t.
Proof. induction s as [|c s IH]; simpl; [reflexivity|now rewrite IH]. Qed.

Lemma js_slice_middle (p o q : string) :
  js_slice (p ++ o ++ q) (Z.of_nat (String.length p))
    (Z.of_nat (String.length p + String.length o)) = o.
Proof.
  unfold js_slice. rewrite !length_app_str.
  rewrite !js_clamp_in_range by lia.
  replace (String.length p + String.length o - String.length p)
    with (String.length o) by lia.
  rewrite substring_app_l. apply substring_prefix.
Qed.

(** Scanning text without braces leaves depth and start untouched. *)
Lemma firstObject_go_no_braces (s p r : string) (i : nat) (st : Z) :
  no_braces p = true ->
  firstObject_go s (p ++ r) i 0 st
  = firstObject_go s r (i + String.length p) 0 st.
Proof.
  revert i; induction p as [|c p IH]; intros i Hp; simpl.
  - now rewrite Nat.add_0_r.
  - simpl in Hp. apply andb_prop in Hp as [Hp Hrest].
    apply andb_prop in Hp as [Hl Hr].
    apply negb_true_iff in Hl, Hr. rewrite Hl, Hr.
    rewrite IH by exact Hrest. f_equal. lia.
Qed.

(** Inside an object, the scan returns the slice ending at the brace that
    closes it. *)
Lemma firstObject_go_closes (s r suf : string) (i : nat) (d st : Z) :
  closes_at_end r d = true -> (0 < d)%Z -> (0 <= st)%Z ->
  firstObject_go s (r ++ suf) i d st
  = Some (js_slice s st (Z.of_nat (i + String.length r))).
Proof.
  revert i d; induction r as [|c r IH]; intros i d Hc Hd Hst;
    simpl in Hc; [discriminate|].
  simpl.
  destruct (Ascii.eqb c chr_lbrace) eqn:El.
  - destruct ((d + 1 =? 0)%Z) eqn:Ez; [apply Z.eqb_eq in Ez; lia|].
    destruct (d =? 0)%Z eqn:Ed0; [apply Z.eqb_eq in Ed0; lia|].
    rewrite IH by (auto; lia). f_equal. f_equal. f_equal. lia.
  - destruct (Ascii.eqb c chr_rbrace) eqn:Er.
    + destruct ((d - 1 =? 0)%Z) eqn:Ez.
      * destruct r; [|discriminate].
        assert (Hge : (st >=? 0)%Z = true) by (apply Z.geb_le; lia).
        rewrite Hge. simpl. do 2 f_equal. lia.
      * simpl. rewrite IH; auto.
        -- f_equal. f_equal. f_equal. lia.
        -- apply Z.eqb_neq in Ez.
           destruct (Z.eq_dec d 1); [lia|].
           lia.
    + destruct ((d =? 0)%Z) eqn:Ez; [apply Z.eqb_eq in Ez; lia|].
      rewrite IH; auto. f_equal. f_equal. f_equal. lia.
Qed.

Lemma firstObject_go_no_lbrace (s r : string) (i : nat) (d st : Z) :
  no_lbrace r = true -> (d <= 0)%Z -> firstObject_go s r i d st = None.
Proof.
  revert i d; induction r as [|c r IH]; intros i d Hr Hd; simpl; [reflexivity|].
  simpl in Hr. apply andb_prop in Hr as [Hc Hr]. apply negb_true_iff in Hc.
  rewrite Hc.
  destruct (Ascii.eqb c chr_rbrace).
  - destruct ((d - 1 =? 0)%Z) eqn:Ez; [apply Z.eqb_eq in Ez; lia|].
    simpl. apply IH; auto; lia.
  - apply IH; auto.
Qed.

(** The two revisions' extractors agree: the [start >= 0] test of
    [firstObject] never fails when the depth returns to zero, because a
    positive depth is only reached through an opening brace at depth zero,
    which sets [start]. *)
Lemma firstObject_go_firstJson_go (s r : string) (i : nat) (d st : Z) :
  ((0 < d)%Z -> (0 <= st)%Z) ->
  firstObject_go s r i d st = firstJson_go s r i d st.
Proof.
  revert i d st; induction r as [|c r IH]; intros i d st Hinv; simpl;
    [reflexivity|].
  destruct (Ascii.eqb c chr_lbrace).
  - apply IH. intros Hpos. destruct (d =? 0)%Z eqn:E; [lia|].
    apply Z.eqb_neq in E. apply Hinv. lia.
  - destruct (Ascii.eqb c chr_rbrace); [|apply IH; exact Hinv].
    destruct ((d - 1 =? 0)%Z) eqn:Ez.
    + apply Z.eqb_eq in Ez.
      assert (Hge : (st >=? 0)%Z = true) by (apply Z.geb_le; apply Hinv; lia).
      rewrite Hge. reflexivity.
    + simpl. apply IH. intros Hpos. apply Hinv. lia.
Qed.

Lemma firstObject_firstJson (s : string) : firstObject s = firstJson s.
Proof. apply firstObject_go_firstJson_go. lia. Qed.

(** ** Claim theorems: extractor and sanitizer *)

(** C5 (as stated): for [prefix + object + suffix] with no unbalanced brace
    in prefix or suffix, the extractor returns the object.  False: a
    balanced [{}] in the prefix is itself the first object, and a JSON
    object with a brace inside a string literal is cut at that brace. *)
Lemma C5_extractor_counterexample :
  let obj1 := "{" ++ dq ++ "a" ++ dq ++ ":1}" in
  let obj2 := "{" ++ dq ++ "a" ++ dq ++ ":" ++ dq ++ "}" ++ dq ++ "}" in
  firstObject ("{}" ++ obj1 ++ "") = Some "{}"
  /\ "{}" <> obj1
  /\ firstObject ("" ++ obj2 ++ "") = Some ("{" ++ dq ++ "a" ++ dq ++ ":" ++ dq ++ "}")
  /\ firstJson ("" ++ obj2 ++ "") = Some ("{" ++ dq ++ "a" ++ dq ++ ":" ++ dq ++ "}").
Proof. cbv zeta. repeat split; vm_compute; try reflexivity; discriminate. Qed.

(** C5 (amended): when the prefix contains no brace character and the
    object's braces, counted character by character, first return to
    depth zero at its last character, both [firstObject] and [firstJson]
    return exactly the object whatever the suffix; on a string with no
    opening brace both return null. *)
Theorem firstObject_contract (p o q : string) :
  no_braces p = true -> balanced_object o = true ->
  firstObject (p ++ o ++ q) = Some o
  /\ firstJson (p ++ o ++ q) = Some o
  /\ (forall s, no_lbrace s = true -> firstObject s = None /\ firstJson s = None).
Proof.
  intros Hp Ho.
  assert (Hobj : firstObject (p ++ o ++ q) = Some o).
  { unfold firstObject. rewrite firstObject_go_no_braces by exact Hp.
    destruct o as [|c r]; [discriminate|].
    simpl in Ho. apply andb_prop in Ho as [Hc Hr].
    simpl. rewrite Hc. simpl.
    rewrite firstObject_go_closes by (auto; lia).
    f_equal.
    transitivity (js_slice (p ++ String c r ++ q) (Z.of_nat (String.length p))
                    (Z.of_nat (String.length p + String.length (String c r)))).
    + f_equal; simpl; lia.
    + apply js_slice_middle. }
  split; [exact Hobj|]. split; [rewrite <- firstObject_firstJson; exact Hobj|].
  intros s Hs. rewrite <- firstObject_firstJson.
  unfold firstObject. rewrite firstObject_go_no_lbrace by (auto; lia).
  split; reflexivity.
Qed.

Lemma firstObject_contract_witness :
  no_braces "Plan: " = true /\ balanced_object ("{" ++ dq ++ "steps" ++ dq ++ ":[{" ++ dq ++ "x" ++ dq ++ ":{}}]}") = true
  /\ firstObject ("Plan: " ++ ("{" ++ dq ++ "steps" ++ dq ++ ":[{" ++ dq ++ "x" ++ dq ++ ":{}}]}") ++ " }done")
     = Some ("{" ++ dq ++ "steps" ++ dq ++ ":[{" ++ dq ++ "x" ++ dq ++ ":{}}]}").
Proof.
  split; [reflexivity|]. split; [reflexivity|].
  apply (firstObject_contract "Plan: " ("{" ++ dq ++ "steps" ++ dq ++ ":[{" ++ dq ++ "x" ++ dq ++ ":{}}]}") " }done");
    reflexivity.
Defined.

(** C6 (as stated): the sanitizer is idempotent.  False: removing a block
    can join the two halves of a split opening marker into a new block. *)
Lemma C6_sanitizer_counterexample :
  let s := "<!--CON<!--CONTEXTCONTEXT-->TEXTCONTEXT-->" in
  stripContext s = "<!--CONTEXTCONTEXT-->"
  /\ stripContext (stripContext s) = ""
  /\ stripContext (stripContext s) <> stripContext s.
Proof. vm_compute. split; [reflexivity|]. split; [reflexivity|]. discriminate. Qed.

(** C6 (amended): on a text with no complete [<!--CONTEXT ... CONTEXT-->]
    block the sanitizer ([stripContext], and [stripCtx] which is the same
    regular expression) is the identity, so applying it once or twice
    gives the text back. *)
Theorem stripContext_identity_without_block (s : string) :
  has_block s = false ->
  stripContext s = s /\ stripCtx s = s
  /\ stripContext (stripContext s) = stripContext s.
Proof.
  intros H. unfold stripCtx, stripContext.
  rewrite !(strip_aux_no_block s) by exact H.
  repeat split; reflexivity.
Qed.

Lemma stripContext_identity_without_block_witness :
  has_block "see <!--CONTEXT never closed" = false
  /\ stripContext "see <!--CONTEXT never closed" = "see <!--CONTEXT never closed".
Proof.
  split; [reflexivity|].
  apply (stripContext_identity_without_block "see <!--CONTEXT never closed").
  reflexivity.
Defined.

Lemma typed_events_app (a b : list frame) :
  typed_events (app a b) = app (typed_events a) (typed_events b).
Proof.
  induction a as [|f a IH]; [reflexivity|].
  destruct f as [e|]; simpl; [destruct e|]; simpl; rewrite ?IH; reflexivity.
Qed.

(** ** One iteration of the step loop *)

Section Loop.

Variable w : world.
Variables (query : string) (messages : list msg) (steps : list json).

(** A response with a truthy [tool]: the tool runs once, its entry is
    appended to the tool log, and the same index runs again. *)
Lemma exec_loop_tool_step (fuel i : nat) (tl : list tool_log_entry)
    (sl : list step_log_entry) (s : st) (raw out : string) (t : json) :
  i < length steps ->
  w_llm w (st_ncall s) = LLMText raw ->
  tool_of (step_act w raw) = Some t ->
  w_tool w t (nullish (js_get (step_act w raw) "params") (JObj [])) = BridgeOut out ->
  exec_loop w (S fuel) query messages steps i tl sl s
  = exec_loop w fuel query messages steps i
      (app tl [mkToolLog t (js_get (step_act w raw) "params") (tool_output w t out)]) sl
      (let s1 := after_call query messages steps s i tl sl in
       mkSt (st_frames s1) (st_calls s1)
            (app (st_tools s1) [(t, nullish (js_get (step_act w raw) "params") (JObj []))])
            (st_ncall s1)).
Proof.
  intros Hi Hllm Htool Hbr. simpl.
  apply Nat.ltb_lt in Hi. rewrite Hi.
  cbv [bind enqueue enqueue_frame execStep callLLM ret runTool]. simpl.
  rewrite Hllm. rewrite Htool. unfold runTool. simpl. rewrite Hbr.
  reflexivity.
Qed.

(** A response with a tool that the bridge cannot run: the exception
    leaves the loop. *)
Lemma exec_loop_tool_fail (fuel i : nat) (tl : list tool_log_entry)
    (sl : list step_log_entry) (s : st) (raw e : string) (t : json) :
  i < length steps ->
  w_llm w (st_ncall s) = LLMText raw ->
  tool_of (step_act w raw) = Some t ->
  w_tool w t (nullish (js_get (step_act w raw) "params") (JObj [])) = BridgeFail e ->
  fst (exec_loop w (S fuel) query messages steps i tl sl s) = Throw e.
Proof.
  intros Hi Hllm Htool Hbr. simpl.
  apply Nat.ltb_lt in Hi. rewrite Hi.
  cbv [bind enqueue enqueue_frame execStep callLLM ret runTool]. simpl.
  rewrite Hllm. rewrite Htool. unfold runTool. simpl. rewrite Hbr.
  reflexivity.
Qed.

(** A response without a truthy [tool]: one step-log entry and one [step]
    event; the loop stops on [done] or at the last index, and otherwise
    moves to the next index. *)
Lemma exec_loop_result_step (fuel i : nat) (tl : list tool_log_entry)
    (sl : list step_log_entry) (s : st) (raw : string) :
  i < length steps ->
  w_llm w (st_ncall s) = LLMText raw ->
  tool_of (step_act w raw) = None ->
  let act := step_act w raw in
  let output := nullish (js_get act "result") (JStr "") in
  let s1 := after_call query messages steps s i tl sl in
  let s2 := mkSt (app (st_frames s1) [Ev (EvStep i (nth i steps JNull) output)])
                 (st_calls s1) (st_tools s1) (st_ncall s1) in
  exec_loop w (S fuel) query messages steps i tl sl s
  = if js_truthy_opt (js_get act "done") || Nat.eqb i (length steps - 1)
    then (Ret (tl, app sl [mkStepLog (nth i steps JNull) output]), s2)
    else exec_loop w fuel query messages steps (S i) tl
           (app sl [mkStepLog (nth i steps JNull) output]) s2.
Proof.
  intros Hi Hllm Htool. simpl.
  apply Nat.ltb_lt in Hi. rewrite Hi.
  cbv [bind enqueue enqueue_frame execStep callLLM ret runTool]. simpl.
  rewrite Hllm. rewrite Htool.
  destruct (js_truthy_opt _ || _); reflexivity.
Qed.

Lemma exec_loop_retries (k fuel i : nat) (tl : list tool_log_entry)
    (sl : list step_log_entry) (s : st) (raw : string) :
  i < length steps ->
  (forall j, j < k -> tool_reply_at w (st_ncall s + j)) ->
  w_llm w (st_ncall s + k) = LLMText raw ->
  tool_of (step_act w raw) = None ->
  let act := step_act w raw in
  let output := nullish (js_get act "result") (JStr "") in
  exists new_tl s',
    length new_tl = k
    /\ length (st_tools s') = length (st_tools s) + k
    /\ st_ncall s' = st_ncall s + k + 1
    /\ typed_events (st_frames s')
       = app (typed_events (st_frames s)) [EvStep i (nth i steps JNull) output]
    /\ exec_loop w (S k + fuel) query messages steps i tl sl s
       = if js_truthy_opt (js_get act "done") || Nat.eqb i (length steps - 1)
         then (Ret (app tl new_tl, app sl [mkStepLog (nth i steps JNull) output]), s')
         else exec_loop w fuel query messages steps (S i) (app tl new_tl)
                (app sl [mkStepLog (nth i steps JNull) output]) s'.
Proof.
  intros Hi. revert tl s. induction k as [|k IH]; intros tl s Htools Hllm Hres act output.
  - rewrite Nat.add_0_r in Hllm.
    pose (s1 := after_call query messages steps s i tl sl).
    exists [], (mkSt (app (st_frames s1) [Ev (EvStep i (nth i steps JNull) output)])
                 (st_calls s1) (st_tools s1) (st_ncall s1)).
    split; [reflexivity|]. split; [simpl; lia|].
    split; [simpl; lia|]. split.
    + simpl. rewrite !typed_events_app. simpl. rewrite app_nil_r. reflexivity.
    + rewrite app_nil_r. simpl (S 0 + fuel).
      exact (exec_loop_result_step fuel i tl sl s raw Hi Hllm Hres).
  - destruct (Htools 0 ltac:(lia)) as (raw0 & t & out & H0 & Ht & Hb).
    rewrite Nat.add_0_r in H0.
    change (S (S k) + fuel) with (S (S k + fuel)).
    rewrite (exec_loop_tool_step (S k + fuel) i tl sl s raw0 out t Hi H0 Ht Hb).
    set (s1 := let s1 := after_call query messages steps s i tl sl in
               mkSt (st_frames s1) (st_calls s1)
                 (app (st_tools s1)
                    [(t, nullish (js_get (step_act w raw0) "params") (JObj []))])
                 (st_ncall s1)).
    set (e0 := mkToolLog t (js_get (step_act w raw0) "params") (tool_output w t raw0 )).
    clear e0.
    destruct (IH (app tl [mkToolLog t (js_get (step_act w raw0) "params")
                       (tool_output w t out)]) s1) as (new_tl & s' & Hlen & Htl & Hn & Hev & Hrun).
    + intros j Hj. unfold s1; simpl. replace (S (st_ncall s + j)) with (st_ncall s + S j) by lia.
      apply Htools. lia.
    + unfold s1; simpl. replace (S (st_ncall s + k)) with (st_ncall s + S k) by lia.
      exact Hllm.
    + exact Hres.
    + exists (mkToolLog t (js_get (step_act w raw0) "params") (tool_output w t out) :: new_tl), s'.
      split; [simpl; lia|].
      split; [rewrite Htl; unfold s1; simpl; rewrite length_app; simpl; lia|].
      split; [rewrite Hn; unfold s1; simpl; lia|].
      split.
      * rewrite Hev. unfold s1; simpl. rewrite typed_events_app. simpl.
        rewrite app_nil_r. reflexivity.
      * rewrite Hrun. rewrite <- app_assoc. reflexivity.
Qed.

(** The frames, outputs and step log of any run of the loop, finished,
    failed or cut off: it appends status events and the [step] events of
    consecutive indices from [i]; a finished run at a valid index has
    at least one [step] event and its step log matches them. *)
Lemma exec_loop_shape (fuel i : nat) (tl : list tool_log_entry)
    (sl : list step_log_entry) (s : st) :
  i <= length steps ->
  exists added outs,
    st_frames (snd (exec_loop w fuel query messages steps i tl sl s))
      = app (st_frames s) added
    /\ typed_events added = step_events steps i outs
    /\ i + length outs <= length steps
    /\ forall tl' sl',
         fst (exec_loop w fuel query messages steps i tl sl s) = Ret (tl', sl') ->
         sl' = app sl (step_logs steps i outs) /\ (i < length steps -> 1 <= length outs).
Proof.
  revert i tl sl s. induction fuel as [|fuel IH]; intros i tl sl s Hi.
  - exists [], []. simpl. rewrite app_nil_r. repeat split; try lia; discriminate.
  - simpl. destruct (Nat.ltb i (length steps)) eqn:Hlt.
    + apply Nat.ltb_lt in Hlt.
      cbv [bind enqueue enqueue_frame execStep callLLM ret runTool]. simpl.
      destruct (w_llm w (st_ncall s)) as [raw|e].
      * destruct (tool_of (step_act w raw)) as [t|] eqn:Ht.
        -- destruct (w_tool w t _) as [out|e].
           ++ set (s1 := mkSt _ _ _ _).
              destruct (IH i (app tl [mkToolLog t (js_get (step_act w raw) "params")
                        (tool_output w t out)]) sl s1 Hi)
                as (added & outs & Hfr & Hty & Hb & Hret).
              exists (app [Ev (EvStatus (StatusStep (S i) (length steps)))] added), outs.
              split; [rewrite Hfr; unfold s1; simpl; rewrite <- ?app_assoc; reflexivity|].
              split; [simpl; exact Hty|]. split; [exact Hb|].
              exact Hret.
           ++ exists [Ev (EvStatus (StatusStep (S i) (length steps)))], [].
              simpl. repeat split; try lia; discriminate.
        -- set (output := nullish (js_get (step_act w raw) "result") (JStr "")).
           destruct (js_truthy_opt _ || Nat.eqb i (length steps - 1)) eqn:Hstop.
           ++ exists [Ev (EvStatus (StatusStep (S i) (length steps)));
                      Ev (EvStep i (nth i steps JNull) output)], [output].
              simpl. rewrite <- ?app_assoc. simpl.
              split; [reflexivity|]. split; [reflexivity|]. split; [lia|].
              intros tl' sl' Heq. inversion Heq; subst. split; [reflexivity|lia].
           ++ apply orb_false_iff in Hstop as [_ Hlast].
              apply Nat.eqb_neq in Hlast.
              set (s2 := mkSt _ _ _ _).
              destruct (IH (S i) tl (app sl [mkStepLog (nth i steps JNull) output]) s2
                          ltac:(lia)) as (added & outs & Hfr & Hty & Hb & Hret).
              exists (app [Ev (EvStatus (StatusStep (S i) (length steps)));
                           Ev (EvStep i (nth i steps JNull) output)] added),
                     (output :: outs).
              split; [rewrite Hfr; unfold s2; simpl; rewrite <- !app_assoc; reflexivity|].
              split; [simpl; rewrite Hty; reflexivity|].
              split; [simpl; lia|].
              intros tl' sl' Heq. destruct (Hret tl' sl' Heq) as [Hsl _].
              split; [rewrite Hsl, <- app_assoc; reflexivity|simpl; lia].
      * exists [Ev (EvStatus (StatusStep (S i) (length steps)))], [].
        simpl. repeat split; try lia; discriminate.
    + apply Nat.ltb_ge in Hlt.
      exists [], []. simpl. rewrite app_nil_r.
      split; [reflexivity|]. split; [reflexivity|]. split; [lia|].
      intros tl' sl' Heq. inversion Heq; subst.
      split; [rewrite app_nil_r; reflexivity|lia].
Qed.

End Loop.

(** ** Whole requests *)

Lemma plan_of_text_cases (w : world) (t : string) :
  (exists l, l <> [] /\ plan_of_text w t = mkPlanRes (Some l) None)
  \/ plan_of_text w t = mkPlanRes None (Some (js_trim (stripContext t))).
Proof.
  unfold plan_of_text.
  destruct (firstObject t) as [o|]; [|right; reflexivity].
  destruct (String.eqb o ""); [right; reflexivity|].
  destruct (w_parse w o) as [obj|]; [|right; reflexivity].
  destruct (js_get obj "steps") as [[| | | |[|x xs]|]|]; try (right; reflexivity).
  left. exists (x :: xs). split; [discriminate|reflexivity].
Qed.

Lemma in_typed_events (e : event) (fs : list frame) :
  In (Ev e) fs -> (forall m, e <> EvStatus m) -> In e (typed_events fs).
Proof.
  induction fs as [|f fs IH]; intros Hin Hst; [destruct Hin|].
  destruct Hin as [Heq|Hin].
  - subst f. destruct e; simpl; try (left; reflexivity).
    exfalso. eapply Hst. reflexivity.
  - destruct f as [e'|]; simpl; [destruct e'; simpl|]; try right; auto.
Qed.

Lemma step_events_steps (steps : list json) (i : nat) (outs : list json) (e : event) :
  In e (step_events steps i outs) -> exists j st o, e = EvStep j st o.
Proof.
  revert i; induction outs as [|o os IH]; intros i Hin; [destruct Hin|].
  destruct Hin as [Heq|Hin]; [subst; eauto|eapply IH; exact Hin].
Qed.

(** A frame that is not in a concrete list of frames. *)
Ltac in_absurd H :=
  simpl in H; repeat (destruct H as [H|H]; [congruence|]); destruct H.

Lemma not_in_step_frames (steps : list json) (i : nat) (outs : list json)
    (added : list frame) (e : event) :
  typed_events added = step_events steps i outs ->
  (forall m, e <> EvStatus m) -> (forall j st o, e <> EvStep j st o) ->
  ~ In (Ev e) added.
Proof.
  intros Hty Hst Hstep Hin.
  apply in_typed_events in Hin; [|exact Hst].
  rewrite Hty in Hin. apply step_events_steps in Hin as (j & st0 & o & He).
  exact (Hstep j st0 o He).
Qed.

(** A frame of a request's stream: it is one of the listed frames of the
    phases around the loop, or else a frame the loop added. *)
Ltac frame_cases H Hty :=
  unfold plan_state in H; simpl in H;
  repeat rewrite in_app_iff in H; simpl in H;
  decompose [or] H; clear H;
  try (exfalso; congruence);
  try match goal with
      | H' : False |- _ => destruct H'
      | H' : In (Ev ?e) _ |- _ =>
          exfalso; refine (not_in_step_frames _ _ _ _ e Hty _ _ H');
          [intros ? Hm; discriminate Hm | intros ? ? ? Hm; discriminate Hm]
      end;
  match goal with H' : Ev _ = Ev _ |- _ => rename H' into H end.


Lemma POST_success_shape (w : world) (fuel : nat) (messages : list msg)
    (steps : list json) (text : string) :
  In (Ev (EvPlan (Some steps))) (st_frames (POST w fuel messages)) ->
  In (Ev (EvSummary text true false)) (st_frames (POST w fuel messages)) ->
  exists outs tl sl s2 summary,
    exec_loop w fuel (query_of messages) messages steps 0 [] [] (plan_state messages steps)
      = (Ret (tl, sl), s2)
    /\ w_llm w (st_ncall s2) = LLMText summary
    /\ text = summary ++ nl ++ nl ++ hidden_block tl sl
    /\ sl = step_logs steps 0 outs
    /\ 1 <= length outs <= length steps
    /\ typed_events (st_frames (POST w fuel messages))
       = EvPlan (Some steps) :: app (step_events steps 0 outs) [EvSummary text true false]
    /\ st_frames (POST w fuel messages)
       = app (app (st_frames s2) [Ev (EvStatus StatusFinalising)])
             [Ev (EvSummary text true false); DoneMarker].
Proof.
  remember (POST w fuel messages) as r eqn:Hr.
  intros Hplan Hsum. unfold POST in Hr.
  cbv [post_body bind enqueue enqueue_frame getPlan callLLM ret throw st_init] in Hr. simpl in Hr.
  destruct (w_llm w 0) as [t|e]; simpl in Hr.
  2: { exfalso. subst r. in_absurd Hplan. }
  destruct (plan_of_text_cases w t) as [(l & Hne & Hp)|Hp]; rewrite Hp in Hr; simpl in Hr.
  2: { exfalso. destruct (String.eqb _ _); simpl in Hr; subst r; in_absurd Hplan. }
  change {| st_frames := [Ev (EvStatus StatusPlanning); Ev (EvPlan (Some l))];
            st_calls := [mkCall (PromptPlan (query_of messages)) (clean_history messages)];
            st_tools := []; st_ncall := 1 |} with (plan_state messages l) in Hr.
  destruct (exec_loop_shape w (query_of messages) messages l fuel 0 [] []
              (plan_state messages l) ltac:(lia)) as (added & outs & Hfr & Hty & Hb & Hret).
  destruct (exec_loop w fuel (query_of messages) messages l 0 [] [] (plan_state messages l))
    as [o s2] eqn:Hex.
  simpl in Hfr, Hret.
  destruct o as [[tl sl]|e|]; simpl in Hr.
  - destruct (w_llm w (st_ncall s2)) as [sum|e] eqn:Hs; simpl in Hr; subst r; simpl in Hplan, Hsum.
    + rewrite Hfr in Hplan, Hsum.
      frame_cases Hplan Hty. injection Hplan as <-.
      frame_cases Hsum Hty. injection Hsum as Htext.
      destruct (Hret tl sl eq_refl) as [Hsl Hlen].
      exists outs, tl, sl, s2, sum.
      split; [exact Hex|]. split; [exact Hs|]. split; [symmetry; exact Htext|].
      split; [exact Hsl|].
      split; [split; [apply Hlen; destruct l; [congruence|simpl; lia]|lia]|].
      split.
      * cbn [st_frames]. rewrite !typed_events_app, Hfr. simpl. rewrite Hty.
        rewrite <- Htext, <- app_assoc. simpl. rewrite app_nil_r. reflexivity.
      * cbn [st_frames]. rewrite Htext, <- app_assoc. reflexivity.
    + rewrite Hfr in Hsum. frame_cases Hsum Hty.
  - subst r. simpl in Hsum. rewrite Hfr in Hsum. frame_cases Hsum Hty.
  - subst r. rewrite Hfr in Hsum. frame_cases Hsum Hty.
Qed.


(** ** The hidden block and the client's rendering *)

Lemma prefix_nil (s : string) : prefix "" s = true.
Proof. destruct s; reflexivity. Qed.

Lemma prefix_app_sep (c : ascii) (p x y : string) :
  char_free c p = true -> prefix p (x ++ String c y) = prefix p x.
Proof.
  revert p. induction x as [|e x IH]; intros p Hp.
  - destruct p as [|d p]; [rewrite !prefix_nil; reflexivity|]. simpl in Hp |- *.
    apply andb_prop in Hp as [Hd _].
    destruct (ascii_dec d c) as [->|]; [|reflexivity].
    rewrite Ascii.eqb_refl in Hd. discriminate.
  - destruct p as [|d p]; [rewrite !prefix_nil; reflexivity|]. simpl.
    destruct (ascii_dec d e); [|reflexivity].
    apply IH. simpl in Hp. apply andb_prop in Hp as [_ Hp]. exact Hp.
Qed.

Lemma prefix_app_self (p y : string) : prefix p (p ++ y) = true.
Proof.
  induction p as [|c p IH]; [apply prefix_nil|]. simpl.
  destruct (ascii_dec c c) as [_|n]; [exact IH|contradiction].
Qed.

Lemma str_drop_app (p y : string) : str_drop (String.length p) (p ++ y) = y.
Proof. induction p as [|c p IH]; [reflexivity|exact IH]. Qed.

Lemma strip_aux_empty (n : nat) : strip_aux n "" = "".
Proof. destruct n; reflexivity. Qed.

Lemma after_close_eq (s : string) :
  after_close s = if prefix close_marker s
                  then Some (str_drop (String.length close_marker) s)
                  else match s with
                       | EmptyString => None
                       | String _ s' => after_close s'
                       end.
Proof. destruct s; reflexivity. Qed.

Lemma strip_aux_S (n : nat) (s : string) :
  strip_aux (S n) s
  = match match_block s with
    | Some rest => strip_aux n rest
    | None => match s with
              | EmptyString => EmptyString
              | String c s' => String c (strip_aux n s')
              end
    end.
Proof. reflexivity. Qed.

Lemma strip_aux_skip (a rest : string) (fuel : nat) :
  contains open_marker a = false ->
  strip_aux (String.length a + fuel) (a ++ nl ++ rest) = a ++ strip_aux fuel (nl ++ rest).
Proof.
  induction a as [|c a IH]; intros Ha; [reflexivity|].
  cbn [contains] in Ha. apply orb_false_iff in Ha as [Hp Hc].
  change (String.length (String c a) + fuel) with (S (String.length a + fuel)).
  rewrite strip_aux_S. unfold match_block.
  change (String c a ++ nl ++ rest) with (String c a ++ String (ascii_of_nat 10) rest).
  rewrite prefix_app_sep by reflexivity. rewrite Hp.
  simpl. f_equal. exact (IH Hc).
Qed.

Lemma after_close_skip (x y : string) :
  contains close_marker x = false ->
  after_close (x ++ String (ascii_of_nat 10) y) = after_close (String (ascii_of_nat 10) y).
Proof.
  induction x as [|c x IH]; intros Hx; [reflexivity|].
  cbn [contains] in Hx. apply orb_false_iff in Hx as [Hp Hc].
  rewrite after_close_eq. rewrite prefix_app_sep by reflexivity. rewrite Hp.
  exact (IH Hc).
Qed.

Lemma match_block_nl (x : string) : match_block (String (ascii_of_nat 10) x) = None.
Proof. reflexivity. Qed.

Lemma strip_aux_open (n : nat) (y r : string) :
  after_close y = Some r -> strip_aux (S n) (open_marker ++ y) = strip_aux n r.
Proof.
  intros H. rewrite strip_aux_S. unfold match_block.
  rewrite prefix_app_self, str_drop_app, H. reflexivity.
Qed.

Lemma after_close_tail (j : string) :
  contains close_marker j = false ->
  after_close (nl ++ j ++ nl ++ "CONTEXT-->") = Some "".
Proof.
  intros Hj.
  change (nl ++ j ++ nl ++ "CONTEXT-->")
    with ((String (ascii_of_nat 10) j) ++ String (ascii_of_nat 10) "CONTEXT-->").
  rewrite after_close_skip; [reflexivity|].
  cbn [contains]. rewrite Hj. reflexivity.
Qed.

(** A text followed by two newlines and a block whose JSON holds no closing
    marker loses exactly the block, when the text holds no opening marker. *)
Lemma stripContext_hidden (a j : string) :
  contains open_marker a = false -> contains close_marker j = false ->
  stripContext (a ++ nl ++ nl ++ "<!--CONTEXT" ++ nl ++ j ++ nl ++ "CONTEXT-->")
  = a ++ nl ++ nl.
Proof.
  intros Ha Hj. unfold stripContext.
  rewrite length_app_str, <- Nat.add_succ_r.
  rewrite strip_aux_skip by exact Ha. f_equal.
  change (nl ++ nl ++ "<!--CONTEXT" ++ nl ++ j ++ nl ++ "CONTEXT-->")
    with (String (ascii_of_nat 10) (String (ascii_of_nat 10)
            (open_marker ++ nl ++ j ++ nl ++ "CONTEXT-->"))).
  cbn [String.length].
  rewrite strip_aux_S, match_block_nl. cbv beta iota.
  rewrite strip_aux_S, match_block_nl. cbv beta iota.
  rewrite (strip_aux_open _ _ "") by (apply after_close_tail; exact Hj).
  rewrite strip_aux_empty. reflexivity.
Qed.

Lemma chat_display_summary (a : string) (tl : list tool_log_entry)
    (sl : list step_log_entry) :
  contains open_marker a = false -> contains close_marker (logs_text tl sl) = false ->
  chat_display (a ++ nl ++ nl ++ hidden_block tl sl) = js_trim (replace_crlf (a ++ nl ++ nl)).
Proof.
  intros Ha Hl. unfold chat_display, hidden_block.
  change (stringify (JObj [("stepsLog", JArr (map step_log_json sl));
                           ("toolsLog", JArr (map tool_log_json tl))]))
    with (logs_text tl sl).
  rewrite stripContext_hidden by assumption. reflexivity.
Qed.

(** ** The histories of the model calls *)

(** A call the loop records is a step call on the cleaned history. *)
Lemma exec_loop_calls (w : world) (query : string) (messages : list msg)
    (steps : list json) (fuel i : nat) (tl : list tool_log_entry)
    (sl : list step_log_entry) (s : st) (c : llm_call) :
  In c (st_calls (snd (exec_loop w fuel query messages steps i tl sl s))) ->
  In c (st_calls s)
  \/ (call_history c = clean_history messages
      /\ exists j tl' sl', call_prompt c = PromptExecute query steps j tl' sl').
Proof.
  revert i tl sl s. induction fuel as [|fuel IH]; intros i tl sl s H; [left; exact H|].
  simpl in H. destruct (Nat.ltb i (length steps)); [|left; exact H].
  cbv [bind enqueue enqueue_frame execStep callLLM ret runTool] in H. simpl in H.
  assert (Hnew : forall c', In c' (app (st_calls s)
                   [mkCall (PromptExecute query steps i tl sl) (clean_history messages)]) ->
            In c' (st_calls s)
            \/ (call_history c' = clean_history messages
                /\ exists j tl' sl', call_prompt c' = PromptExecute query steps j tl' sl')).
  { intros c' Hc. apply in_app_iff in Hc as [Hc|[Hc|[]]]; [left; exact Hc|].
    right. subst c'. split; [reflexivity|]. do 3 eexists; reflexivity. }
  destruct (w_llm w (st_ncall s)) as [raw|e]; simpl in H; [|exact (Hnew c H)].
  destruct (tool_of (step_act w raw)) as [t|].
  - destruct (w_tool w t _) as [out|e]; simpl in H; [|exact (Hnew c H)].
    apply IH in H as [H|H]; [exact (Hnew c H)|right; exact H].
  - destruct (js_truthy_opt _ || Nat.eqb i (length steps - 1)); simpl in H;
      [exact (Hnew c H)|].
    apply IH in H as [H|H]; [exact (Hnew c H)|right; exact H].
Qed.

(** Every model call of a request gets the cleaned history, except the
    summary call, which gets the request's messages as they are. *)
Lemma POST_calls (w : world) (fuel : nat) (messages : list msg) (c : llm_call) :
  In c (st_calls (POST w fuel messages)) ->
  call_history c = clean_history messages
  \/ (call_history c = messages /\ exists q sl, call_prompt c = PromptSummary q sl).
Proof.
  remember (POST w fuel messages) as r eqn:Hr. intros Hc. unfold POST in Hr.
  cbv [post_body bind enqueue enqueue_frame getPlan callLLM ret throw st_init] in Hr.
  simpl in Hr.
  assert (Hplan : forall l, In c (st_calls (plan_state messages l)) ->
                   call_history c = clean_history messages).
  { intros l H. simpl in H. destruct H as [<-|[]]. reflexivity. }
  destruct (w_llm w 0) as [t|e]; simpl in Hr.
  2: { subst r. left. exact (Hplan [] Hc). }
  destruct (plan_of_text_cases w t) as [(l & Hne & Hp)|Hp]; rewrite Hp in Hr; simpl in Hr.
  2: { left. apply (Hplan []). destruct (String.eqb _ _); simpl in Hr; subst r; exact Hc. }
  change {| st_frames := [Ev (EvStatus StatusPlanning); Ev (EvPlan (Some l))];
            st_calls := [mkCall (PromptPlan (query_of messages)) (clean_history messages)];
            st_tools := []; st_ncall := 1 |} with (plan_state messages l) in Hr.
  pose proof (exec_loop_calls w (query_of messages) messages l fuel 0 [] []
                (plan_state messages l)) as HL.
  destruct (exec_loop w fuel (query_of messages) messages l 0 [] [] (plan_state messages l))
    as [o s2] eqn:Hex.
  simpl in HL.
  assert (H2 : In c (st_calls s2) -> call_history c = clean_history messages).
  { intros H. destruct (HL c H) as [H'|[H' _]]; [exact (Hplan l H')|exact H']. }
  destruct o as [[tl sl]|e|]; simpl in Hr.
  - destruct (w_llm w (st_ncall s2)) as [sum|e]; simpl in Hr; subst r; simpl in Hc;
      rewrite ?app_nil_r in Hc;
      apply in_app_iff in Hc as [Hc|[Hc|[]]];
      solve [left; exact (H2 Hc) | right; subst c; split; [reflexivity|do 2 eexists; reflexivity]].
  - subst r. left. exact (H2 Hc).
  - subst r. left. exact (H2 Hc).
Qed.

(** ** Termination of the step loop *)

Section Termination.

Variable w : world.
Variables (query : string) (messages : list msg) (steps : list json).

(** Every model call answers with text, and the bridge always runs. *)
Hypothesis text_replies : forall n, exists raw, w_llm w n = LLMText raw.
Hypothesis bridge_runs : forall t p, exists out, w_tool w t p = BridgeOut out.

Lemma index_finishes_here (i : nat) (tl : list tool_log_entry)
    (sl : list step_log_entry) (s : st) (raw : string) :
  i < length steps -> w_llm w (st_ncall s) = LLMText raw ->
  tool_of (step_act w raw) = None ->
  exists stop e s1,
    (Nat.eqb i (length steps - 1) = true -> stop = true)
    /\ forall fuel,
         exec_loop w (S fuel) query messages steps i tl sl s
         = if stop then (Ret (tl, app sl [e]), s1)
           else exec_loop w fuel query messages steps (S i) tl (app sl [e]) s1.
Proof.
  intros Hi Hraw Hnt.
  exists (js_truthy_opt (js_get (step_act w raw) "done") || Nat.eqb i (length steps - 1)).
  do 2 eexists. split.
  - intros H. rewrite H. apply orb_true_r.
  - intros fuel. exact (exec_loop_result_step w query messages steps fuel i tl sl s raw
                          Hi Hraw Hnt).
Qed.

(** From a state whose [d]-th next answer has no tool, the loop leaves
    index [i] after finitely many tool calls. *)
Lemma index_finishes (d i : nat) (tl : list tool_log_entry)
    (sl : list step_log_entry) (s : st) :
  i < length steps -> nontool_reply_at w (st_ncall s + d) ->
  exists k stop tl1 e s1,
    (Nat.eqb i (length steps - 1) = true -> stop = true)
    /\ forall fuel,
         exec_loop w (S k + fuel) query messages steps i tl sl s
         = if stop then (Ret (tl1, app sl [e]), s1)
           else exec_loop w fuel query messages steps (S i) tl1 (app sl [e]) s1.
Proof.
  revert tl s. induction d as [|d IH]; intros tl s Hi Hn.
  - destruct Hn as (raw & Hraw & Hnt). rewrite Nat.add_0_r in Hraw.
    destruct (index_finishes_here i tl sl s raw Hi Hraw Hnt) as (stop & e & s1 & Hs & Hrun).
    exists 0, stop, tl, e, s1. split; [exact Hs|]. exact Hrun.
  - destruct (text_replies (st_ncall s)) as [raw Hraw].
    destruct (tool_of (step_act w raw)) as [t|] eqn:Ht.
    + destruct (bridge_runs t (nullish (js_get (step_act w raw) "params") (JObj [])))
        as [out Hout].
      set (s1 := let s1 := after_call query messages steps s i tl sl in
                 mkSt (st_frames s1) (st_calls s1)
                   (app (st_tools s1)
                      [(t, nullish (js_get (step_act w raw) "params") (JObj []))])
                   (st_ncall s1)).
      destruct (IH (app tl [mkToolLog t (js_get (step_act w raw) "params")
                              (tool_output w t out)]) s1 Hi)
        as (k & stop & tl1 & e & s2 & Hs & Hrun).
      { unfold s1. simpl. replace (S (st_ncall s + d)) with (st_ncall s + S d) by lia.
        exact Hn. }
      exists (S k), stop, tl1, e, s2. split; [exact Hs|]. intros fuel.
      change (S (S k) + fuel) with (S (S k + fuel)).
      rewrite (exec_loop_tool_step w query messages steps (S k + fuel) i tl sl s raw out t
                 Hi Hraw Ht Hout).
      exact (Hrun fuel).
    + destruct (index_finishes_here i tl sl s raw Hi Hraw Ht) as (stop & e & s1 & Hs & Hrun).
      exists 0, stop, tl, e, s1. split; [exact Hs|]. exact Hrun.
Qed.

(** When every index eventually gets an answer without a tool, the loop
    finishes from any index, with at most one step-log entry per index. *)
Lemma exec_loop_terminates :
  (forall n, exists m, n <= m /\ nontool_reply_at w m) ->
  forall r i tl sl s, length steps - i = r -> i <= length steps ->
  exists fuel tl' sl' s',
    exec_loop w fuel query messages steps i tl sl s = (Ret (tl', sl'), s')
    /\ length sl' <= length sl + r.
Proof.
  intros Hinf r. induction r as [|r IH]; intros i tl sl s Hr Hi.
  - exists 1, tl, sl, s. cbn [exec_loop].
    assert (Hlt : Nat.ltb i (length steps) = false) by (apply Nat.ltb_ge; lia).
    rewrite Hlt. split; [reflexivity|lia].
  - destruct (Hinf (st_ncall s)) as (m & Hm & Hnt).
    replace m with (st_ncall s + (m - st_ncall s)) in Hnt by lia.
    destruct (index_finishes (m - st_ncall s) i tl sl s ltac:(lia) Hnt)
      as (k & stop & tl1 & e & s1 & _ & Hrun).
    destruct stop.
    + exists (S k + 0), tl1, (app sl [e]), s1. rewrite (Hrun 0).
      split; [reflexivity|]. rewrite length_app. simpl. lia.
    + destruct (IH (S i) tl1 (app sl [e]) s1 ltac:(lia) ltac:(lia))
        as (fuel & tl' & sl' & s' & Hrun' & Hlen).
      exists (S k + fuel), tl', sl', s'. rewrite (Hrun fuel).
      split; [exact Hrun'|]. rewrite length_app in Hlen. simpl in Hlen. lia.
Qed.

End Termination.

(** When every answer from some point on asks for a tool the bridge runs,
    the loop never finishes at an index it has not left. *)
Lemma exec_loop_diverges (w : world) (query : string) (messages : list msg)
    (steps : list json) (fuel i : nat) (tl : list tool_log_entry)
    (sl : list step_log_entry) (s : st) :
  i < length steps -> (forall m, st_ncall s <= m -> tool_reply_at w m) ->
  fst (exec_loop w fuel query messages steps i tl sl s) = OutOfFuel.
Proof.
  revert tl s. induction fuel as [|fuel IH]; intros tl s Hi Htools; [reflexivity|].
  destruct (Htools (st_ncall s) (le_n _)) as (raw & t & out & H1 & H2 & H3).
  rewrite (exec_loop_tool_step w query messages steps fuel i tl sl s raw out t Hi H1 H2 H3).
  apply IH; [exact Hi|]. intros m Hm. apply Htools.
  unfold after_call in Hm. simpl in Hm. lia.
Qed.
Lemma length_step_logs (steps : list json) (i : nat) (outs : list json) :
  length (step_logs steps i outs) = length outs.
Proof. revert i. induction outs as [|o os IH]; intros i; simpl; [reflexivity|]. now rewrite IH. Qed.

(** A tool answer at the call that reaches index [i] delays its first
    answer without a tool by one call. *)
Lemma answered_tool_back (w : world) (steps : list json) (i n : nat) :
  i < length steps -> tool_reply_at w n -> answered w steps i (S n) -> answered w steps i n.
Proof.
  intros Hi Ht Ha.
  assert (Hext : forall m, S n <= m -> (forall k, S n <= k -> k < m -> tool_reply_at w k) ->
                 forall k, n <= k -> k < m -> tool_reply_at w k).
  { intros m _ Htools k Hk Hkm. destruct (PeanoNat.Nat.eq_dec k n) as [->|Hne]; [exact Ht|].
    apply Htools; lia. }
  inversion Ha as [|i' n' m raw Hi' Hm Htools Hraw Hnt Hstop
                  |i' n' m raw Hi' Hm Htools Hraw Hnt Hstop Hnext]; subst.
  - lia.
  - exact (answered_stop w steps i n m raw Hi ltac:(lia) (Hext m Hm Htools) Hraw Hnt Hstop).
  - exact (answered_next w steps i n m raw Hi ltac:(lia) (Hext m Hm Htools) Hraw Hnt Hstop
             Hnext).
Qed.

(** A run of the loop that finishes satisfies the condition from its
    start. *)
Lemma exec_loop_ret_answered (w : world) (query : string) (messages : list msg)
    (steps : list json)
    (text_replies : forall n, exists raw, w_llm w n = LLMText raw)
    (bridge_runs : forall t p, exists out, w_tool w t p = BridgeOut out) :
  forall fuel i tl sl s,
    fst (exec_loop w fuel query messages steps i tl sl s) <> OutOfFuel ->
    answered w steps i (st_ncall s).
Proof.
  induction fuel as [|fuel IH]; intros i tl sl s H; [exfalso; apply H; reflexivity|].
  destruct (PeanoNat.Nat.lt_ge_cases i (length steps)) as [Hi|Hi]; [|now apply answered_end].
  destruct (text_replies (st_ncall s)) as [raw Hraw].
  destruct (tool_of (step_act w raw)) as [t|] eqn:Ht.
  - destruct (bridge_runs t (nullish (js_get (step_act w raw) "params") (JObj [])))
      as [out Hout].
    rewrite (exec_loop_tool_step w query messages steps fuel i tl sl s raw out t
               Hi Hraw Ht Hout) in H.
    apply IH in H. cbn in H.
    apply answered_tool_back; [exact Hi| |exact H].
    exists raw, t, out. auto.
  - rewrite (exec_loop_result_step w query messages steps fuel i tl sl s raw Hi Hraw Ht) in H.
    cbv zeta in H.
    destruct (loop_stops steps i (step_act w raw)) eqn:Hstop; unfold loop_stops in Hstop;
      rewrite Hstop in H.
    + apply (answered_stop w steps i (st_ncall s) (st_ncall s) raw Hi (le_n _));
        [intros k Hk Hk'; lia|exact Hraw|exact Ht|exact Hstop].
    + apply IH in H. cbn in H.
      apply (answered_next w steps i (st_ncall s) (st_ncall s) raw Hi (le_n _));
        [intros k Hk Hk'; lia|exact Hraw|exact Ht|exact Hstop|exact H].
Qed.

(** [k] tool answers in a row at index [i] lead to index [i] again at
    the call [k] later. *)
Lemma exec_loop_after_tools (w : world) (query : string) (messages : list msg)
    (steps : list json) (i : nat) (Hi : i < length steps) :
  forall k tl sl s,
    (forall j, j < k -> tool_reply_at w (st_ncall s + j)) ->
    (forall tl1 s1, st_ncall s1 = st_ncall s + k ->
       exists fuel tl' sl' s',
         exec_loop w fuel query messages steps i tl1 sl s1 = (Ret (tl', sl'), s')) ->
    exists fuel tl' sl' s',
      exec_loop w fuel query messages steps i tl sl s = (Ret (tl', sl'), s').
Proof.
  induction k as [|k IH]; intros tl sl s Htools Hcont.
  - apply Hcont. lia.
  - destruct (Htools 0 ltac:(lia)) as (raw & t & out & H1 & H2 & H3).
    rewrite Nat.add_0_r in H1.
    edestruct IH as (fuel & tl' & sl' & s' & Hrun).
    3: { exists (S fuel), tl', sl', s'.
         rewrite (exec_loop_tool_step w query messages steps fuel i tl sl s raw out t
                    Hi H1 H2 H3).
         exact Hrun. }
    + intros j Hj. cbn. replace (S (st_ncall s + j)) with (st_ncall s + S j) by lia.
      apply Htools. lia.
    + intros tl1 s1 Hs1. apply Hcont. cbn in Hs1. lia.
Qed.

(** The condition makes the loop finish. *)
Lemma answered_exec_loop_ret (w : world) (query : string) (messages : list msg)
    (steps : list json) (i n : nat) :
  answered w steps i n ->
  forall tl sl s, st_ncall s = n ->
  exists fuel tl' sl' s',
    exec_loop w fuel query messages steps i tl sl s = (Ret (tl', sl'), s').
Proof.
  induction 1 as [i n Hle|i n m raw Hi Hnm Htools Hraw Hnt Hstop
                 |i n m raw Hi Hnm Htools Hraw Hnt Hstop Ha IH];
    intros tl sl s Hn.
  - exists 1, tl, sl, s. cbn [exec_loop].
    assert (Hlt : Nat.ltb i (length steps) = false) by (apply PeanoNat.Nat.ltb_ge; lia).
    rewrite Hlt. reflexivity.
  - subst n. apply (exec_loop_after_tools w query messages steps i Hi (m - st_ncall s)).
    + intros j Hj. apply Htools; lia.
    + intros tl1 s1 Hs1.
      assert (Hr : w_llm w (st_ncall s1) = LLMText raw) by (rewrite Hs1; rewrite <- Hraw; f_equal; lia).
      pose proof (exec_loop_result_step w query messages steps 0 i tl1 sl s1 raw Hi Hr Hnt)
        as Hrun.
      cbv zeta in Hrun. unfold loop_stops in Hstop. rewrite Hstop in Hrun.
      do 4 eexists. exact Hrun.
  - subst n. apply (exec_loop_after_tools w query messages steps i Hi (m - st_ncall s)).
    + intros j Hj. apply Htools; lia.
    + intros tl1 s1 Hs1.
      assert (Hr : w_llm w (st_ncall s1) = LLMText raw) by (rewrite Hs1; rewrite <- Hraw; f_equal; lia).
      edestruct IH as (fuel & tl' & sl' & s' & Hrun').
      2: { exists (S fuel), tl', sl', s'.
           rewrite (exec_loop_result_step w query messages steps fuel i tl1 sl s1 raw Hi Hr Hnt).
           cbv zeta. unfold loop_stops in Hstop. rewrite Hstop. exact Hrun'. }
      cbn. lia.
Qed.


(** ** The planning phase *)

(** In the statements below, [In] over a concrete list of frames is
    settled by computing the list. *)
Ltac in_concrete := vm_compute; repeat (first [left; reflexivity | right]).

(** ** Claim theorems: the step loop *)

(** C1 (as stated): a response that contains a [tool] field runs the tool
    and re-runs the same index.  False: the route tests [act.tool] for
    truthiness, so the response [{"tool":null,"result":"r"}] runs no tool
    and the plan moves on to index 1. *)
Lemma C1_falsy_tool_counterexample :
  let w := ex_world bridge_ok [LLMText plan_ab; LLMText tool_null_r; LLMText result_s;
                               LLMText "Sum"] in
  js_get (step_act w tool_null_r) "tool" = Some JNull
  /\ st_tools (POST w 10 ex_msgs) = []
  /\ exists txt,
       typed_events (st_frames (POST w 10 ex_msgs))
       = [EvPlan (Some [JStr "a"; JStr "b"]); EvStep 0 (JStr "a") (JStr "r");
          EvStep 1 (JStr "b") (JStr "s"); EvSummary txt true false].
Proof.
  cbv zeta. split; [vm_compute; reflexivity|]. split; [vm_compute; reflexivity|].
  eexists. vm_compute. reflexivity.
Qed.

(** C1 (amended): at a valid index [i], when the next [k] model answers
    each carry a truthy [tool] for which [runTool] returns (the bridge
    prints an output) and the answer after them carries none, the loop
    runs the bridge exactly [k] times, appends
    exactly [k] tool-log entries, one step-log entry and one [step] event
    for index [i], and then stops (on [done] or at the last index) or goes
    on with index [i + 1].  With [k = 2] this is the three-response case. *)
Theorem tool_responses_retry_index (w : world) (query : string) (messages : list msg)
    (steps : list json) (k fuel i : nat) (tl : list tool_log_entry)
    (sl : list step_log_entry) (s : st) (raw : string) :
  i < length steps ->
  (forall j, j < k -> tool_reply_at w (st_ncall s + j)) ->
  w_llm w (st_ncall s + k) = LLMText raw ->
  tool_of (step_act w raw) = None ->
  let act := step_act w raw in
  let output := nullish (js_get act "result") (JStr "") in
  exists new_tl s',
    length new_tl = k
    /\ length (st_tools s') = length (st_tools s) + k
    /\ st_ncall s' = st_ncall s + k + 1
    /\ typed_events (st_frames s')
       = app (typed_events (st_frames s)) [EvStep i (nth i steps JNull) output]
    /\ exec_loop w (S k + fuel) query messages steps i tl sl s
       = if js_truthy_opt (js_get act "done") || Nat.eqb i (length steps - 1)
         then (Ret (app tl new_tl, app sl [mkStepLog (nth i steps JNull) output]), s')
         else exec_loop w fuel query messages steps (S i) (app tl new_tl)
                (app sl [mkStepLog (nth i steps JNull) output]) s'.
Proof.
  intros Hi Htools Hllm Hres. exact (exec_loop_retries w query messages steps k fuel i tl sl s raw
                                       Hi Htools Hllm Hres).
Qed.

Lemma tool_responses_retry_index_witness :
  exists (new_tl : list tool_log_entry) (s' : st),
    length new_tl = 2 /\ length (st_tools s') = 2 /\ st_ncall s' = 3.
Proof.
  destruct (tool_responses_retry_index
              (ex_world bridge_ok [LLMText tool_gc; LLMText tool_gc; LLMText result_s])
              "q" ex_msgs [JStr "a"; JStr "b"] 2 1 0 [] [] st_init result_s)
    as (new_tl & s' & Hl & Ht & Hn & _ & _).
  - simpl. lia.
  - intros j Hj. destruct j as [|[|j]]; [| |lia];
      exists tool_gc, (JStr "get_courses"), "[]"; vm_compute; repeat split.
  - reflexivity.
  - vm_compute. reflexivity.
  - exists new_tl, s'. simpl in Ht, Hn. split; [exact Hl|]. split; [exact Ht|exact Hn].
Defined.

(** C2 (as stated): a successful request with an [N]-step plan emits [N]
    [step] events.  False: a step answer marked [done] (or one that is
    not JSON, which the fallback marks [done]) ends the loop early; here a
    two-step plan gets one [step] event. *)
Lemma C2_early_done_counterexample :
  exists txt,
    typed_events (st_frames (POST ex_w2 10 ex_msgs))
    = [EvPlan (Some [JStr "a"; JStr "b"]); EvStep 0 (JStr "a") (JStr "r");
       EvSummary txt true false].
Proof. eexists. vm_compute. reflexivity. Qed.

(** C2 (amended): when a request's stream holds a [plan] event with
    [steps] and a [summary] event without the error flag, its events,
    leaving out [status] events, are exactly the [plan] event, the [step]
    events of indices [0, 1, ..., k - 1] for some [1 <= k <= N], and that
    one [summary] event (no [summary_chunk] event), and the stream ends
    with the [summary] event and the end marker. *)
Theorem success_event_order (w : world) (fuel : nat) (messages : list msg)
    (steps : list json) (text : string) :
  In (Ev (EvPlan (Some steps))) (st_frames (POST w fuel messages)) ->
  In (Ev (EvSummary text true false)) (st_frames (POST w fuel messages)) ->
  exists outs,
    1 <= length outs <= length steps
    /\ typed_events (st_frames (POST w fuel messages))
       = EvPlan (Some steps) :: app (step_events steps 0 outs) [EvSummary text true false]
    /\ exists pre, st_frames (POST w fuel messages)
                   = app pre [Ev (EvSummary text true false); DoneMarker].
Proof.
  intros Hplan Hsum.
  destruct (POST_success_shape w fuel messages steps text Hplan Hsum)
    as (outs & tl & sl & s2 & sum & _ & _ & _ & _ & Hlen & Hty & Hfr).
  exists outs. split; [exact Hlen|]. split; [exact Hty|].
  exists (app (st_frames s2) [Ev (EvStatus StatusFinalising)]). exact Hfr.
Qed.

Lemma success_event_order_witness :
  exists outs,
    1 <= length outs <= 2
    /\ typed_events (st_frames (POST ex_w2 10 ex_msgs))
       = EvPlan (Some [JStr "a"; JStr "b"])
         :: app (step_events [JStr "a"; JStr "b"] 0 outs) [EvSummary ex_summary2 true false].
Proof.
  destruct (success_event_order ex_w2 10 ex_msgs [JStr "a"; JStr "b"] ex_summary2)
    as (outs & Hlen & Hty & _).
  - in_concrete.
  - in_concrete.
  - exists outs. split; [exact Hlen|exact Hty].
Defined.

(** ** Claim theorems: planning and tools *)

(** C3: a plan reply without steps whose sanitized, trimmed text is empty
    (for instance a reply of blanks, or only a hidden block) does not end
    as a direct answer: [if (planRes.direct)] is false for [''], the route
    sends a [plan] event without steps and [steps.length] throws, so the
    request ends with the error summary. *)
Theorem blank_plan_reply_fails (w : world) (fuel : nat) (messages : list msg) (t : string) :
  w_llm w 0 = LLMText t -> plan_of_text w t = mkPlanRes None (Some "") ->
  st_frames (POST w fuel messages)
  = [Ev (EvStatus StatusPlanning); Ev (EvPlan None);
     Ev (EvSummary (warn_prefix ++ undefined_length_error) true true); DoneMarker].
Proof.
  intros Hllm Hp. unfold POST.
  cbv [post_body bind enqueue enqueue_frame getPlan callLLM ret throw st_init].
  simpl. rewrite Hllm. simpl. rewrite Hp. reflexivity.
Qed.

Lemma blank_plan_reply_fails_witness :
  plan_of_text (ex_world bridge_ok [LLMText "   "]) "   " = mkPlanRes None (Some "")
  /\ st_frames (POST (ex_world bridge_ok [LLMText "   "]) 10 ex_msgs)
     = [Ev (EvStatus StatusPlanning); Ev (EvPlan None);
        Ev (EvSummary (warn_prefix ++ undefined_length_error) true true); DoneMarker].
Proof.
  split; [reflexivity|].
  apply (blank_plan_reply_fails (ex_world bridge_ok [LLMText "   "]) 10 ex_msgs "   ");
    reflexivity.
Defined.

(** C4: at a step whose answer asks for a tool, a bridge output that is
    not JSON becomes the result [{ error: "Invalid JSON from <tool>", raw }]
    of one new tool-log entry, with no event, and the same index runs
    again; a bridge failure ([execSync] throws) is not turned into a
    result: the exception leaves the step loop. *)
Theorem tool_failure_handling (w : world) (query : string) (messages : list msg)
    (steps : list json) (fuel i : nat) (tl : list tool_log_entry)
    (sl : list step_log_entry) (s : st) (raw : string) (t : json) :
  i < length steps -> w_llm w (st_ncall s) = LLMText raw ->
  tool_of (step_act w raw) = Some t ->
  let params := nullish (js_get (step_act w raw) "params") (JObj []) in
  (forall out, w_tool w t params = BridgeOut out -> w_parse w out = None ->
     exists s',
       exec_loop w (S fuel) query messages steps i tl sl s
       = exec_loop w fuel query messages steps i
           (app tl [mkToolLog t (js_get (step_act w raw) "params")
                      (JObj [("error", JStr ("Invalid JSON from " ++ js_to_string t));
                             ("raw", JStr out)])]) sl s'
       /\ typed_events (st_frames s') = typed_events (st_frames s)
       /\ st_tools s' = app (st_tools s) [(t, params)])
  /\ (forall e, w_tool w t params = BridgeFail e ->
        fst (exec_loop w (S fuel) query messages steps i tl sl s) = Throw e).
Proof.
  intros Hi Hllm Ht params. split.
  - intros out Hout Hparse. eexists. split; [|split].
    + rewrite (exec_loop_tool_step w query messages steps fuel i tl sl s raw out t
                 Hi Hllm Ht Hout).
      unfold tool_output. rewrite Hparse. reflexivity.
    + simpl. rewrite typed_events_app. simpl. apply app_nil_r.
    + reflexivity.
  - intros e He. exact (exec_loop_tool_fail w query messages steps fuel i tl sl s raw e t
                          Hi Hllm Ht He).
Qed.

Lemma tool_failure_handling_witness :
  exists s',
    exec_loop (ex_world bridge_text [LLMText tool_gc]) 1 "q" ex_msgs [JStr "a"] 0 [] [] st_init
    = exec_loop (ex_world bridge_text [LLMText tool_gc]) 0 "q" ex_msgs [JStr "a"] 0
        [mkToolLog (JStr "get_courses") None
           (JObj [("error", JStr "Invalid JSON from get_courses"); ("raw", JStr "Traceback")])]
        [] s'.
Proof.
  destruct (proj1 (tool_failure_handling (ex_world bridge_text [LLMText tool_gc]) "q" ex_msgs
                     [JStr "a"] 0 0 [] [] st_init tool_gc (JStr "get_courses")
                     ltac:(simpl; lia) eq_refl ltac:(vm_compute; reflexivity))
                  "Traceback" eq_refl eq_refl)
    as (s' & Hrun & _).
  exists s'. exact Hrun.
Defined.

(** C4 (a run): a step that asks for a tool whose bridge command fails
    ends the request with the error summary, without any [step] event. *)
Lemma C4_bridge_failure_counterexample :
  let w := ex_world bridge_fail [LLMText plan_ab; LLMText tool_gc] in
  typed_events (st_frames (POST w 10 ex_msgs))
  = [EvPlan (Some [JStr "a"; JStr "b"]);
     EvSummary (warn_prefix ++ "Command failed: python3 tool_caller.py") true true].
Proof. cbv zeta. vm_compute. reflexivity. Qed.

(** ** Claim theorems: histories *)

(** C7: every model call of a request (plan, step and summary calls) gets
    a history as long as the request's messages: nothing is cut to the
    last [MAX_HISTORY] messages. *)
Theorem call_history_full (w : world) (fuel : nat) (messages : list msg) (c : llm_call) :
  In c (st_calls (POST w fuel messages)) -> length (call_history c) = length messages.
Proof.
  intros Hc. destruct (POST_calls w fuel messages c Hc) as [->|[-> _]].
  - unfold clean_history. apply length_map.
  - reflexivity.
Qed.

Lemma call_history_full_witness :
  length (call_history (mkCall (PromptPlan "hi") (clean_history ex_msgs11))) = 11
  /\ length (history_v3 ex_msgs11) = MAX_HISTORY.
Proof.
  split; [|reflexivity].
  apply (call_history_full (ex_world bridge_ok [LLMText "Hello"]) 10 ex_msgs11).
  in_concrete.
Defined.

(** C8: the plan and step calls get the history with hidden blocks
    removed, but the summary call gets the request's messages unchanged;
    so two conversations that differ only inside a hidden block give the
    same plan and step calls and different summary-call histories. *)
Theorem summary_call_raw_history :
  (forall w fuel messages c,
     In c (st_calls (POST w fuel messages)) ->
     call_history c = clean_history messages
     \/ (call_history c = messages /\ exists q sl, call_prompt c = PromptSummary q sl))
  /\ (clean_history (ex_ctx_msgs "A") = clean_history (ex_ctx_msgs "B")
      /\ map call_prompt (st_calls (POST ex_w2 10 (ex_ctx_msgs "A")))
         = map call_prompt (st_calls (POST ex_w2 10 (ex_ctx_msgs "B")))
      /\ map call_history (firstn 2 (st_calls (POST ex_w2 10 (ex_ctx_msgs "A"))))
         = map call_history (firstn 2 (st_calls (POST ex_w2 10 (ex_ctx_msgs "B"))))
      /\ map call_history (skipn 2 (st_calls (POST ex_w2 10 (ex_ctx_msgs "A"))))
         = [ex_ctx_msgs "A"]
      /\ map call_history (skipn 2 (st_calls (POST ex_w2 10 (ex_ctx_msgs "B"))))
         = [ex_ctx_msgs "B"]
      /\ ex_ctx_msgs "A" <> ex_ctx_msgs "B").
Proof.
  split.
  - intros w fuel messages c Hc. exact (POST_calls w fuel messages c Hc).
  - refine (conj _ (conj _ (conj _ (conj _ (conj _ _)))));
      [vm_compute; reflexivity .. |].
    vm_compute. discriminate.
Qed.

(** ** Claim theorems: termination *)

(** C9: with a model that answers every call with text and a bridge that
    always runs, the loop has no bound of its own: (1) from any index and
    state, the loop finishes for some fuel exactly when every index it
    reaches eventually gets an answer without a truthy [tool] ([answered]
    from the current call); (2) every finished run from index [i] appends
    at most one step-log entry per remaining index, at most [L] from
    index 0 for a plan of length [L]; (3) when from some call on every
    answer asks for a tool, the loop at a valid index never finishes,
    whatever the fuel; (4) when answers without a tool keep coming, the
    loop finishes from every index. *)
Theorem step_loop_termination (w : world) (query : string) (messages : list msg)
    (steps : list json)
    (text_replies : forall n, exists raw, w_llm w n = LLMText raw)
    (bridge_runs : forall t p, exists out, w_tool w t p = BridgeOut out) :
  (forall i tl sl s,
     (exists fuel, fst (exec_loop w fuel query messages steps i tl sl s) <> OutOfFuel)
     <-> answered w steps i (st_ncall s))
  /\ (forall fuel i tl sl s tl' sl' s',
        i <= length steps ->
        exec_loop w fuel query messages steps i tl sl s = (Ret (tl', sl'), s') ->
        length sl' <= length sl + (length steps - i))
  /\ (forall fuel i tl sl s,
        i < length steps -> (forall m, st_ncall s <= m -> tool_reply_at w m) ->
        fst (exec_loop w fuel query messages steps i tl sl s) = OutOfFuel)
  /\ ((forall n, exists m, n <= m /\ nontool_reply_at w m) ->
      forall i tl sl s, i <= length steps ->
      exists fuel tl' sl' s',
        exec_loop w fuel query messages steps i tl sl s = (Ret (tl', sl'), s')
        /\ length sl' <= length sl + (length steps - i)).
Proof.
  split; [|split; [|split]].
  - intros i tl sl s. split.
    + intros [fuel H].
      exact (exec_loop_ret_answered w query messages steps text_replies bridge_runs
               fuel i tl sl s H).
    + intros Ha.
      destruct (answered_exec_loop_ret w query messages steps i (st_ncall s) Ha tl sl s eq_refl)
        as (fuel & tl' & sl' & s' & Hrun).
      exists fuel. rewrite Hrun. discriminate.
  - intros fuel i tl sl s tl' sl' s' Hi Hrun.
    destruct (exec_loop_shape w query messages steps fuel i tl sl s Hi)
      as (added & outs & _ & _ & Hb & Hret).
    rewrite Hrun in Hret. destruct (Hret tl' sl' eq_refl) as [Hsl _].
    rewrite Hsl, length_app, length_step_logs. lia.
  - intros fuel i tl sl s Hi Htools.
    exact (exec_loop_diverges w query messages steps fuel i tl sl s Hi Htools).
  - intros Hinf i tl sl s Hi.
    exact (exec_loop_terminates w query messages steps text_replies bridge_runs Hinf
             (length steps - i) i tl sl s eq_refl Hi).
Qed.

(** The model that finishes at its first answer and asks for tools ever
    after: the loop finishes on a two-step plan. *)
Lemma step_loop_termination_witness :
  exists fuel,
    fst (exec_loop ex_world_done_tools fuel "q" ex_msgs [JStr "a"; JStr "b"] 0 [] [] st_init)
    <> OutOfFuel.
Proof.
  apply (proj2 (proj1 (step_loop_termination ex_world_done_tools "q" ex_msgs
                         [JStr "a"; JStr "b"]
                         ltac:(intros n; simpl; destruct (Nat.eqb n 0); eexists; reflexivity)
                         ltac:(intros t p; eexists; reflexivity))
                  0 [] [] st_init)).
  apply (answered_stop ex_world_done_tools [JStr "a"; JStr "b"] 0 0 0 done_r).
  - simpl. lia.
  - lia.
  - intros k Hk Hk'. lia.
  - reflexivity.
  - vm_compute. reflexivity.
  - vm_compute. reflexivity.
Defined.

(** ** Claim theorems: the hidden block *)

(** C10: the client's rendering does not always remove the hidden block.
    When a logged text contains the closing marker, the lazy match ends
    inside the log and the rest of the JSON is shown. *)
Lemma C10_marker_in_output_counterexample :
  let w := ex_world bridge_ok [LLMText plan_ab; LLMText leak_r; LLMText "Sum"] in
  exists txt,
    typed_events (st_frames (POST w 10 ex_msgs))
    = [EvPlan (Some [JStr "a"; JStr "b"]); EvStep 0 (JStr "a") (JStr "xCONTEXT-->y");
       EvSummary txt true false]
    /\ chat_display txt
       = "Sum" ++ nl ++ nl ++ "y" ++ dq ++ "}]," ++ jq "toolsLog" ++ ":[]}" ++ nl
         ++ "CONTEXT-->".
Proof.
  cbv zeta. eexists. split; [vm_compute; reflexivity|]. vm_compute. reflexivity.
Qed.

(** C10: the [summary] event of a request that ran its plan carries the
    summary model's reply, two newlines and the hidden block with the JSON
    of that request's step log and tool log; the client's rendering shows
    the reply and drops the block when the reply holds no opening marker
    and the logs' JSON holds no closing marker.  The closing marker is not
    escaped in the logs, so only this case keeps the block hidden. *)
Theorem summary_hidden_block (w : world) (fuel : nat) (messages : list msg)
    (steps : list json) (text : string) :
  In (Ev (EvPlan (Some steps))) (st_frames (POST w fuel messages)) ->
  In (Ev (EvSummary text true false)) (st_frames (POST w fuel messages)) ->
  exists reply tl sl s2,
    exec_loop w fuel (query_of messages) messages steps 0 [] [] (plan_state messages steps)
      = (Ret (tl, sl), s2)
    /\ w_llm w (st_ncall s2) = LLMText reply
    /\ text = reply ++ nl ++ nl ++ hidden_block tl sl
    /\ hidden_block tl sl = "<!--CONTEXT" ++ nl ++ logs_text tl sl ++ nl ++ "CONTEXT-->"
    /\ (contains open_marker reply = false -> contains close_marker (logs_text tl sl) = false ->
        chat_display text = js_trim (replace_crlf (reply ++ nl ++ nl))).
Proof.
  intros Hplan Hsum.
  destruct (POST_success_shape w fuel messages steps text Hplan Hsum)
    as (outs & tl & sl & s2 & sum & Hex & Hs & Ht & _).
  exists sum, tl, sl, s2. split; [exact Hex|]. split; [exact Hs|]. split; [exact Ht|].
  split; [reflexivity|].
  intros Ho Hc. rewrite Ht. exact (chat_display_summary sum tl sl Ho Hc).
Qed.

Lemma summary_hidden_block_witness : chat_display ex_summary2 = "Sum".
Proof.
  destruct (summary_hidden_block ex_w2 10 ex_msgs [JStr "a"; JStr "b"] ex_summary2)
    as (reply & tl & sl & s2 & Hex & Hs & _ & _ & Hdisp).
  - in_concrete.
  - in_concrete.
  - vm_compute in Hex. injection Hex as <- <- <-.
    vm_compute in Hs. injection Hs as <-.
    rewrite Hdisp by (vm_compute; reflexivity). vm_compute. reflexivity.
Defined.

(** ** Streamed replies: [streamLLM] *)

Lemma str_app_nil_r (s : string) : s ++ "" = s.
Proof. induction s as [|c s IH]; simpl; [reflexivity|now rewrite IH]. Qed.

Lemma str_app_assoc (a b c : string) : a ++ b ++ c = (a ++ b) ++ c.
Proof. induction a as [|x a IH]; simpl; [reflexivity|now rewrite IH]. Qed.

Lemma lines_of_app (x y : string) :
  lines_of (x ++ y) =
  let (lx, rx) := lines_of x in
  let (ly, ry) := lines_of y in
  match ly with
  | [] => (lx, rx ++ ry)
  | l :: ly' => (app lx ((rx ++ l) :: ly'), ry)
  end.
Proof.
  induction x as [|c x IH]; simpl.
  - destruct (lines_of y) as [[|l ly] ry]; reflexivity.
  - rewrite IH. destruct (lines_of x) as [lx rx]. destruct (lines_of y) as [ly ry].
    destruct (Ascii.eqb c LF); destruct ly as [|l ly]; destruct lx as [|l' lx]; reflexivity.
Qed.

Lemma char_free_cons (c d : ascii) (s : string) :
  char_free c (String d s) = negb (Ascii.eqb c d) && char_free c s.
Proof. reflexivity. Qed.

Lemma lines_of_rest (s : string) : char_free LF (snd (lines_of s)) = true.
Proof.
  induction s as [|c s IH]; [reflexivity|]. cbn [lines_of].
  destruct (lines_of s) as [ls r] eqn:E. cbn [snd] in IH.
  destruct (Ascii.eqb c LF) eqn:Ec; [exact IH|].
  destruct ls; cbn [snd]; [|exact IH].
  rewrite char_free_cons, IH, andb_true_r, Ascii.eqb_sym, Ec. reflexivity.
Qed.

Lemma lines_of_nolf (s : string) : char_free LF s = true -> lines_of s = ([], s).
Proof.
  induction s as [|c s IH]; intros H; [reflexivity|].
  rewrite char_free_cons in H. apply andb_prop in H as [Hc H].
  cbn [lines_of]. rewrite (IH H).
  rewrite Ascii.eqb_sym in Hc. apply negb_true_iff in Hc. rewrite Hc. reflexivity.
Qed.

Lemma lines_of_app_rest (x y : string) (lx : list string) (rx : string) :
  lines_of x = (lx, rx) ->
  lines_of (x ++ y) = (app lx (fst (lines_of (rx ++ y))), snd (lines_of (rx ++ y))).
Proof.
  intros Hx. rewrite lines_of_app, Hx.
  assert (Hr : char_free LF rx = true) by (pose proof (lines_of_rest x) as H; rewrite Hx in H; exact H).
  rewrite (lines_of_app rx y), (lines_of_nolf rx Hr).
  destruct (lines_of y) as [[|l ly] ry]; cbn [fst snd]; rewrite ?app_nil_r; reflexivity.
Qed.

Lemma sse_lines_app (parse : string -> option json) (a b : list string) :
  sse_lines parse (app a b) =
  let (da, sa) := sse_lines parse a in
  if sa then (da, true)
  else let (db, sb) := sse_lines parse b in (app da db, sb).
Proof.
  induction a as [|l a IH]; simpl.
  - destruct (sse_lines parse b); reflexivity.
  - destruct (prefix data_prefix l); [|exact IH].
    destruct (String.eqb _ "[DONE]"); [reflexivity|].
    rewrite IH. destruct (sse_lines parse a) as [da sa].
    destruct sa; [reflexivity|]. destruct (sse_lines parse b) as [db sb].
    rewrite app_assoc. reflexivity.
Qed.

Lemma sse_go_concat (parse : string -> option json) (buf : string) (cs : list string) :
  char_free LF buf = true ->
  sse_go parse buf cs = sse_go parse "" [buf ++ concat_all cs].
Proof.
  revert buf. induction cs as [|c cs IH]; intros buf Hb.
  - simpl. rewrite str_app_nil_r, (lines_of_nolf buf Hb). simpl. reflexivity.
  - cbn [sse_go concat_all]. simpl (EmptyString ++ _).
    destruct (lines_of (buf ++ c)) as [ls r] eqn:E.
    rewrite (IH r) by (pose proof (lines_of_rest (buf ++ c)) as H; rewrite E in H; exact H).
    rewrite str_app_assoc, (lines_of_app_rest _ _ _ _ E).
    cbn [sse_go]. simpl (EmptyString ++ _).
    destruct (lines_of (r ++ concat_all cs)) as [L R]. simpl.
    rewrite map_app, sse_lines_app.
    destruct (sse_lines parse (map drop_cr ls)) as [da sa].
    destruct sa; [reflexivity|].
    destruct (sse_lines parse (map drop_cr L)) as [db sb].
    destruct sb; [reflexivity|]. rewrite app_assoc. reflexivity.
Qed.

Lemma str_app_nil_l (s : string) : "" ++ s = s.
Proof. reflexivity. Qed.

Lemma sse_go_one (parse : string -> option json) (t : string) :
  sse_go parse "" [t]
  = let (ls, r) := lines_of t in
    let (ds, stop) := sse_lines parse (map drop_cr ls) in
    if stop then ds else app ds (sse_flush parse r).
Proof. reflexivity. Qed.

Lemma lines_of_line (r y : string) :
  char_free LF r = true ->
  lines_of (r ++ String LF y) = (r :: fst (lines_of y), snd (lines_of y)).
Proof.
  intros Hr. rewrite lines_of_app, (lines_of_nolf r Hr). cbn [lines_of].
  destruct (lines_of y) as [ly ry]. rewrite Ascii.eqb_refl, str_app_nil_r. reflexivity.
Qed.

Lemma lines_of_terminated (pre : string) :
  (pre = "" \/ exists p, pre = p ++ nl) -> exists lp, lines_of pre = (lp, "").
Proof.
  intros [->|[p ->]]; [exists []; reflexivity|].
  destruct (lines_of p) as [lp rp] eqn:E.
  exists (app lp [rp]). rewrite (lines_of_app_rest _ _ _ _ E).
  pose proof (lines_of_rest p) as Hr. rewrite E in Hr. cbn [snd] in Hr.
  change nl with (String LF "").
  rewrite (lines_of_line rp "" Hr). reflexivity.
Qed.

Lemma prefix_app_r (p a t : string) : prefix p a = true -> prefix p (a ++ t) = true.
Proof.
  revert a; induction p as [|c p IH]; intros a H; [apply prefix_nil|].
  destruct a as [|d a]; [discriminate|]. simpl in H |- *.
  destruct (ascii_dec c d); [exact (IH a H)|discriminate].
Qed.

Lemma drop_cr_prefix (l : string) : exists t, l = drop_cr l ++ t.
Proof.
  induction l as [|c l IH]; [exists ""; reflexivity|].
  destruct l as [|d l].
  - cbn [drop_cr]. destruct (Ascii.eqb c CR); [exists (String c ""); reflexivity|].
    exists ""; reflexivity.
  - destruct IH as [t Ht]. exists t. change (drop_cr (String c (String d l)))
      with (String c (drop_cr (String d l))). cbn [append]. rewrite <- Ht. reflexivity.
Qed.

Lemma after_lines (pre x y : string) (lp : list string) :
  lines_of pre = (lp, "") ->
  lines_of (pre ++ x ++ y) = (app lp (fst (lines_of (x ++ y))), snd (lines_of (x ++ y))).
Proof. intros H. rewrite (lines_of_app_rest _ _ _ _ H). reflexivity. Qed.

(** [streamLLM]: the deltas it yields depend only on the text of the
    response body, not on how the body is cut into chunks. *)
Theorem streamLLM_chunking (parse : string -> option json) (chunks1 chunks2 : list string) :
  concat_all chunks1 = concat_all chunks2 ->
  streamLLM_deltas parse chunks1 = streamLLM_deltas parse chunks2.
Proof.
  intros H. unfold streamLLM_deltas.
  rewrite (sse_go_concat parse "" chunks1 eq_refl), (sse_go_concat parse "" chunks2 eq_refl), H.
  reflexivity.
Qed.

(** A concrete run. *)
Lemma streamLLM_chunking_witness :
  concat_all ex_body_split = concat_all ex_body_whole
  /\ streamLLM_deltas ex_sse_parse ex_body_split = streamLLM_deltas ex_sse_parse ex_body_whole.
Proof.
  split; [reflexivity|].
  apply (streamLLM_chunking ex_sse_parse ex_body_split ex_body_whole). reflexivity.
Defined.

(** [streamLLM]: a complete line [data: [DONE]] ends the stream; nothing
    after it is read, and the deltas are those of the lines before it. *)
Theorem streamLLM_done_stops (parse : string -> option json) (chunks : list string)
    (pre post : string) :
  (pre = "" \/ exists p, pre = p ++ nl) ->
  concat_all chunks = pre ++ "data: [DONE]" ++ nl ++ post ->
  streamLLM_deltas parse chunks = streamLLM_deltas parse [pre].
Proof.
  intros Hpre Hc. destruct (lines_of_terminated pre Hpre) as [lp Hlp].
  unfold streamLLM_deltas. rewrite (sse_go_concat parse "" chunks eq_refl), Hc.
  rewrite ?str_app_nil_l. rewrite !sse_go_one, Hlp.
  rewrite (after_lines pre "data: [DONE]" (nl ++ post) lp Hlp).
  change (nl ++ post) with (String LF post).
  rewrite (lines_of_line "data: [DONE]" post eq_refl). cbn [fst snd].
  rewrite map_app, sse_lines_app.
  destruct (sse_lines parse (map drop_cr lp)) as [da sa].
  destruct sa; [reflexivity|]. simpl. rewrite !app_nil_r. reflexivity.
Qed.

(** A concrete run. *)
Lemma streamLLM_done_stops_witness :
  streamLLM_deltas ex_sse_parse ex_body_split = streamLLM_deltas ex_sse_parse ["data: A" ++ nl ++ "data: B" ++ nl].
Proof.
  apply (streamLLM_done_stops ex_sse_parse ex_body_split ("data: A" ++ nl ++ "data: B" ++ nl) "").
  - right. exists ("data: A" ++ nl ++ "data: B"). reflexivity.
  - reflexivity.
Defined.

(** [streamLLM]: a complete line that does not start with [data: ]
    (a comment, an [event:] line, an empty line) yields nothing and
    changes nothing else. *)
Theorem streamLLM_ignores_other_lines (parse : string -> option json) (chunks : list string)
    (pre l post : string) :
  (pre = "" \/ exists p, pre = p ++ nl) ->
  char_free LF l = true -> prefix data_prefix l = false ->
  concat_all chunks = pre ++ l ++ nl ++ post ->
  streamLLM_deltas parse chunks = streamLLM_deltas parse [pre ++ post].
Proof.
  intros Hpre Hl Hp Hc. destruct (lines_of_terminated pre Hpre) as [lp Hlp].
  unfold streamLLM_deltas. rewrite (sse_go_concat parse "" chunks eq_refl), Hc.
  rewrite ?str_app_nil_l. rewrite !sse_go_one.
  rewrite (after_lines pre l (nl ++ post) lp Hlp).
  change (nl ++ post) with (String LF post).
  rewrite (lines_of_line l post Hl). cbn [fst snd].
  rewrite (lines_of_app_rest pre post lp "" Hlp). rewrite ?str_app_nil_l.
  rewrite !map_app, !sse_lines_app.
  destruct (sse_lines parse (map drop_cr lp)) as [da sa].
  destruct sa; [reflexivity|].
  assert (Hd : prefix data_prefix (drop_cr l) = false).
  { destruct (prefix data_prefix (drop_cr l)) eqn:E; [|reflexivity].
    destruct (drop_cr_prefix l) as [t Ht]. rewrite Ht, (prefix_app_r _ _ _ E) in Hp.
    discriminate. }
  cbn [map sse_lines]. rewrite Hd. reflexivity.
Qed.

(** A concrete run. *)
Lemma streamLLM_ignores_other_lines_witness :
  streamLLM_deltas ex_sse_parse ["data: A" ++ nl ++ ": keep-alive" ++ nl ++ "data: B" ++ nl]
  = streamLLM_deltas ex_sse_parse ["data: A" ++ nl ++ "data: B" ++ nl].
Proof.
  apply (streamLLM_ignores_other_lines ex_sse_parse _ ("data: A" ++ nl) ": keep-alive"
           ("data: B" ++ nl)).
  - right. exists "data: A". reflexivity.
  - reflexivity.
  - reflexivity.
  - reflexivity.
Defined.

(** ** Whole requests of the step-executor revision *)

(** [POST]: when the plan reply holds no usable [steps] and its
    sanitized, trimmed text is not empty, the response is the [planning]
    status, one [summary] with that text and the end marker, after a
    single model call and no tool run. *)
Theorem direct_answer_stream (w : world) (fuel : nat) (messages : list msg) (t : string) :
  w_llm w 0 = LLMText t ->
  pr_steps (plan_of_text w t) = None ->
  js_trim (stripContext t) <> "" ->
  POST w fuel messages
  = mkSt [Ev (EvStatus StatusPlanning); Ev (EvSummary (js_trim (stripContext t)) true false);
          DoneMarker]
         [mkCall (PromptPlan (query_of messages)) (clean_history messages)] [] 1.
Proof.
  intros Hllm Hsteps Hne.
  destruct (plan_of_text_cases w t) as [(l & _ & Hp)|Hp]; rewrite Hp in Hsteps;
    [discriminate|].
  unfold POST. cbv [post_body bind enqueue enqueue_frame getPlan callLLM ret throw st_init].
  simpl. rewrite Hllm. simpl. rewrite Hp. simpl.
  apply String.eqb_neq in Hne. rewrite Hne. reflexivity.
Qed.

(** A concrete run. *)
Lemma direct_answer_stream_witness :
  POST (ex_world bridge_ok [LLMText "Hello!"]) 10 ex_msgs
  = mkSt [Ev (EvStatus StatusPlanning); Ev (EvSummary "Hello!" true false); DoneMarker]
         [mkCall (PromptPlan (query_of ex_msgs)) (clean_history ex_msgs)] [] 1.
Proof.
  apply (direct_answer_stream (ex_world bridge_ok [LLMText "Hello!"]) 10 ex_msgs "Hello!").
  - reflexivity.
  - vm_compute. reflexivity.
  - vm_compute. discriminate.
Defined.

(** [POST]: when the plan call fails, the response is the [planning]
    status, one error [summary] with the warning sign and the message,
    and the end marker; no step is run. *)
Theorem plan_call_failure_stream (w : world) (fuel : nat) (messages : list msg) (e : string) :
  w_llm w 0 = LLMFail e ->
  POST w fuel messages
  = mkSt [Ev (EvStatus StatusPlanning); Ev (EvSummary (warn_prefix ++ e) true true); DoneMarker]
         [mkCall (PromptPlan (query_of messages)) (clean_history messages)] [] 1.
Proof.
  intros Hllm. unfold POST.
  cbv [post_body bind enqueue enqueue_frame getPlan callLLM ret throw st_init].
  simpl. rewrite Hllm. reflexivity.
Qed.

(** A concrete run. *)
Lemma plan_call_failure_stream_witness :
  POST (ex_world bridge_ok []) 10 ex_msgs
  = mkSt [Ev (EvStatus StatusPlanning); Ev (EvSummary (warn_prefix ++ "no reply") true true);
          DoneMarker]
         [mkCall (PromptPlan (query_of ex_msgs)) (clean_history ex_msgs)] [] 1.
Proof. apply plan_call_failure_stream. reflexivity. Defined.

Lemma forallb_progress_app (a b : list frame) :
  forallb progress_frame (app a b) = forallb progress_frame a && forallb progress_frame b.
Proof. apply forallb_app. Qed.

Lemma exec_loop_progress (w : world) (query : string) (messages : list msg)
    (steps : list json) (fuel i : nat) (tl : list tool_log_entry)
    (sl : list step_log_entry) (s : st) :
  forallb progress_frame (st_frames s) = true ->
  forallb progress_frame (st_frames (snd (exec_loop w fuel query messages steps i tl sl s)))
  = true.
Proof.
  revert i tl sl s. induction fuel as [|fuel IH]; intros i tl sl s H; [exact H|].
  simpl. destruct (Nat.ltb i (length steps)); [|exact H].
  cbv [bind enqueue enqueue_frame execStep callLLM ret runTool]. simpl.
  assert (H1 : forallb progress_frame
                 (app (st_frames s) [Ev (EvStatus (StatusStep (S i) (length steps)))]) = true).
  { rewrite forallb_progress_app, H. reflexivity. }
  destruct (w_llm w (st_ncall s)) as [raw|e]; simpl; [|exact H1].
  destruct (tool_of (step_act w raw)) as [t|].
  - destruct (w_tool w t _) as [out|e]; simpl; [|exact H1].
    apply IH. exact H1.
  - assert (H2 : forallb progress_frame
                   (app (app (st_frames s) [Ev (EvStatus (StatusStep (S i) (length steps)))])
                        [Ev (EvStep i (nth i steps JNull)
                               (nullish (js_get (step_act w raw) "result") (JStr "")))]) = true).
    { rewrite forallb_progress_app, H1. reflexivity. }
    destruct (js_truthy_opt _ || Nat.eqb i (length steps - 1)); simpl; [exact H2|].
    apply IH. exact H2.
Qed.

Lemma post_body_frames (w : world) (fuel : nat) (messages : list msg) :
  match post_body w fuel messages st_init with
  | (Ret _, s) =>
      exists pre text, st_frames s = app pre [Ev (EvSummary text true false); DoneMarker]
                       /\ forallb progress_frame pre = true
  | (_, s) => forallb progress_frame (st_frames s) = true
  end.
Proof.
  cbv [post_body bind enqueue enqueue_frame getPlan callLLM ret throw st_init]. simpl.
  destruct (w_llm w 0) as [t|e]; simpl; [|reflexivity].
  destruct (plan_of_text_cases w t) as [(l & Hne & Hp)|Hp]; rewrite Hp; simpl.
  2: { destruct (String.eqb _ _); simpl; [reflexivity|].
       eexists [_], _. split; reflexivity. }
  change {| st_frames := [Ev (EvStatus StatusPlanning); Ev (EvPlan (Some l))];
            st_calls := [mkCall (PromptPlan (query_of messages)) (clean_history messages)];
            st_tools := []; st_ncall := 1 |} with (plan_state messages l).
  pose proof (exec_loop_progress w (query_of messages) messages l fuel 0 [] []
                (plan_state messages l) eq_refl) as HL.
  destruct (exec_loop w fuel (query_of messages) messages l 0 [] [] (plan_state messages l))
    as [o s2]. simpl in HL.
  destruct o as [[tl sl]|e|]; simpl; [|exact HL|exact HL].
  destruct (w_llm w (st_ncall s2)) as [sum|e]; simpl.
  - eexists (app (st_frames s2) [Ev (EvStatus StatusFinalising)]), _. split.
    + rewrite <- app_assoc. reflexivity.
    + rewrite forallb_progress_app, HL. reflexivity.
  - rewrite forallb_progress_app, HL. reflexivity.
Qed.

(** [POST]: a response that is not cut off ends with exactly one
    [summary] event and the end marker, every frame before them being a
    [status], [plan] or [step] event; the summary is flagged as an error
    exactly when the handler threw. *)
Theorem single_final_summary (w : world) (fuel : nat) (messages : list msg) :
  (fst (post_body w fuel messages st_init) = OutOfFuel ->
   forallb progress_frame (st_frames (POST w fuel messages)) = true)
  /\ (fst (post_body w fuel messages st_init) <> OutOfFuel ->
      exists pre text err,
        st_frames (POST w fuel messages) = app pre [Ev (EvSummary text true err); DoneMarker]
        /\ forallb progress_frame pre = true
        /\ (err = true <-> exists e, fst (post_body w fuel messages st_init) = Throw e)).
Proof.
  pose proof (post_body_frames w fuel messages) as H. unfold POST.
  destruct (post_body w fuel messages st_init) as [o s]. cbn [fst].
  destruct o as [u|e|]; split; intros Ho; try congruence.
  - destruct H as (pre & text & Hf & Hp). exists pre, text, false.
    split; [exact Hf|]. split; [exact Hp|]. split; [discriminate|intros [e He]; discriminate].
  - exists (st_frames s), (warn_prefix ++ e), true. cbn.
    split; [rewrite <- app_assoc; reflexivity|]. split; [exact H|].
    split; [intros _; exists e; reflexivity|reflexivity].
Qed.
(** A concrete run. *)
Lemma single_final_summary_witness :
  exists pre text err,
    st_frames (POST ex_w2 10 ex_msgs) = app pre [Ev (EvSummary text true err); DoneMarker]
    /\ forallb progress_frame pre = true
    /\ (err = true <-> exists e, fst (post_body ex_w2 10 ex_msgs st_init) = Throw e).
Proof.
  apply (proj2 (single_final_summary ex_w2 10 ex_msgs)).
  vm_compute. discriminate.
Defined.


(** ** The tool log of the step-executor revision *)

Lemma exec_loop_tools (w : world) (query : string) (messages : list msg)
    (steps : list json) (fuel i : nat) (tl : list tool_log_entry)
    (sl : list step_log_entry) (s : st) tl' sl' s' :
  exec_loop w fuel query messages steps i tl sl s = (Ret (tl', sl'), s') ->
  exists new, tl' = app tl new
              /\ st_tools s' = app (st_tools s) (map bridge_call new)
              /\ Forall (bridge_ran w) new.
Proof.
  revert i tl sl s. induction fuel as [|fuel IH]; intros i tl sl s H; [discriminate|].
  simpl in H. destruct (Nat.ltb i (length steps)).
  2: { injection H as <- <- <-. exists []. rewrite !app_nil_r. auto. }
  cbv [bind enqueue enqueue_frame execStep callLLM ret runTool] in H. simpl in H.
  destruct (w_llm w (st_ncall s)) as [raw|e]; simpl in H; [|discriminate].
  destruct (tool_of (step_act w raw)) as [t|].
  - destruct (w_tool w t _) as [out|e] eqn:Ht; simpl in H; [|discriminate].
    destruct (IH _ _ _ _ H) as (new & -> & Hs & Hf). cbn [st_tools] in Hs.
    eexists (_ :: new). split; [rewrite <- app_assoc; reflexivity|].
    split; [rewrite Hs, <- app_assoc; reflexivity|].
    constructor; [|exact Hf]. exists out. split; [exact Ht|reflexivity].
  - destruct (_ || _); simpl in H.
    + injection H as <- <- <-. exists []. rewrite !app_nil_r. auto.
    + destruct (IH _ _ _ _ H) as (new & -> & Hs & Hf). exists new. auto.
Qed.

(** [POST]: in a request that ran its plan, the tool log serialized in
    the final summary lists exactly the bridge invocations the request
    made, in order, each with its tool, its parameters ([{}] when absent)
    and the value [runTool] made of the bridge's output. *)
Theorem tools_log_records_bridge_calls (w : world) (fuel : nat) (messages : list msg)
    (steps : list json) (text : string) :
  In (Ev (EvPlan (Some steps))) (st_frames (POST w fuel messages)) ->
  In (Ev (EvSummary text true false)) (st_frames (POST w fuel messages)) ->
  exists reply tl sl,
    text = reply ++ nl ++ nl ++ hidden_block tl sl
    /\ map bridge_call tl = st_tools (POST w fuel messages)
    /\ Forall (bridge_ran w) tl.
Proof.
  remember (POST w fuel messages) as r eqn:Hr.
  intros Hplan Hsum. unfold POST in Hr.
  cbv [post_body bind enqueue enqueue_frame getPlan callLLM ret throw st_init] in Hr. simpl in Hr.
  destruct (w_llm w 0) as [t|e]; simpl in Hr.
  2: { exfalso. subst r. in_absurd Hplan. }
  destruct (plan_of_text_cases w t) as [(l & Hne & Hp)|Hp]; rewrite Hp in Hr; simpl in Hr.
  2: { exfalso. destruct (String.eqb _ _); simpl in Hr; subst r; in_absurd Hplan. }
  change {| st_frames := [Ev (EvStatus StatusPlanning); Ev (EvPlan (Some l))];
            st_calls := [mkCall (PromptPlan (query_of messages)) (clean_history messages)];
            st_tools := []; st_ncall := 1 |} with (plan_state messages l) in Hr.
  destruct (exec_loop_shape w (query_of messages) messages l fuel 0 [] []
              (plan_state messages l) ltac:(lia)) as (added & outs & Hfr & Hty & Hb & Hret).
  destruct (exec_loop w fuel (query_of messages) messages l 0 [] [] (plan_state messages l))
    as [o s2] eqn:Hex.
  simpl in Hfr, Hret.
  destruct o as [[tl sl]|e|]; simpl in Hr.
  - destruct (w_llm w (st_ncall s2)) as [sum|e] eqn:Hs; simpl in Hr; subst r; simpl in Hplan, Hsum.
    + rewrite Hfr in Hsum.
      frame_cases Hsum Hty. injection Hsum as Htext.
      destruct (exec_loop_tools _ _ _ _ _ _ _ _ _ _ _ _ Hex) as (new & -> & Ht & Hf).
      exists sum, new, sl. split; [symmetry; exact Htext|]. split; [|exact Hf].
      cbn [st_tools]. rewrite Ht. reflexivity.
    + rewrite Hfr in Hsum. frame_cases Hsum Hty.
  - subst r. simpl in Hsum. rewrite Hfr in Hsum. frame_cases Hsum Hty.
  - subst r. rewrite Hfr in Hsum. frame_cases Hsum Hty.
Qed.

(** A concrete run. *)
Lemma tools_log_records_bridge_calls_witness :
  In (Ev (EvPlan (Some [JStr "a"; JStr "b"]))) (st_frames (POST ex_w_tool 10 ex_msgs))
  /\ In (Ev (EvSummary ex_summary_tool true false)) (st_frames (POST ex_w_tool 10 ex_msgs))
  /\ exists reply tl sl,
       ex_summary_tool = reply ++ nl ++ nl ++ hidden_block tl sl
       /\ map bridge_call tl = st_tools (POST ex_w_tool 10 ex_msgs)
       /\ Forall (bridge_ran ex_w_tool) tl.
Proof.
  assert (Hp : In (Ev (EvPlan (Some [JStr "a"; JStr "b"])))
                  (st_frames (POST ex_w_tool 10 ex_msgs))).
  { vm_compute. repeat (first [left; reflexivity | right]). }
  assert (Hs : In (Ev (EvSummary ex_summary_tool true false))
                  (st_frames (POST ex_w_tool 10 ex_msgs))).
  { vm_compute. repeat (first [left; reflexivity | right]). }
  split; [exact Hp|]. split; [exact Hs|].
  exact (tools_log_records_bridge_calls ex_w_tool 10 ex_msgs _ _ Hp Hs).
Defined.

(** ** The third revision: [runTool] and the history *)

Lemma system_ctx_parsed (w : world) (messages : list msg) (raw : string) (v : json) :
  first_system messages = Some raw -> raw <> "" -> w_parse w raw = Some v ->
  system_ctx w messages = v.
Proof.
  intros Hf Hne Hp. unfold system_ctx. rewrite Hf.
  apply String.eqb_neq in Hne. rewrite Hne, Hp. reflexivity.
Qed.

(** [runTool] of the third revision: when the first system message parses
    to an object whose [courses] is an array, [get_courses] returns that
    array without running the bridge. *)
Theorem runTool_v3_courses_shortcut (w : world) (messages : list msg) (raw : string)
    (ctx : json) (cs : list json) (params : json) (s : st) :
  first_system messages = Some raw -> raw <> "" -> w_parse w raw = Some ctx ->
  js_get ctx "courses" = Some (JArr cs) ->
  runTool_v3 w (system_ctx w messages) (JStr "get_courses") params s = (Ret (JArr cs), s).
Proof.
  intros Hf Hne Hp Hc. rewrite (system_ctx_parsed w messages raw ctx Hf Hne Hp).
  destruct ctx; try discriminate. cbn [js_get] in Hc. unfold runTool_v3. simpl.
  rewrite Hc. reflexivity.
Qed.

(** [runTool] of the third revision: a system message whose content is
    the JSON [null] makes [get_courses] throw a [TypeError], without
    running the bridge. *)
Theorem runTool_v3_null_context (w : world) (messages : list msg) (raw : string)
    (params : json) (s : st) :
  first_system messages = Some raw -> raw <> "" -> w_parse w raw = Some JNull ->
  runTool_v3 w (system_ctx w messages) (JStr "get_courses") params s
  = (Throw null_courses_error, s).
Proof.
  intros Hf Hne Hp. rewrite (system_ctx_parsed w messages raw JNull Hf Hne Hp).
  reflexivity.
Qed.



(** A concrete run. *)
Lemma runTool_v3_courses_shortcut_witness :
  runTool_v3 (ex_v3_world bridge_fail)
    (system_ctx (ex_v3_world bridge_fail) (ex_sys_msgs ctx_courses))
    (JStr "get_courses") (JObj []) st_init
  = (Ret (JArr [JStr "CS101"]), st_init).
Proof.
  apply (runTool_v3_courses_shortcut (ex_v3_world bridge_fail) (ex_sys_msgs ctx_courses)
           ctx_courses (JObj [("courses", JArr [JStr "CS101"])]) [JStr "CS101"] (JObj [])
           st_init).
  - reflexivity.
  - apply String.eqb_neq. vm_compute. reflexivity.
  - vm_compute. reflexivity.
  - reflexivity.
Defined.

(** A concrete run. *)
Lemma runTool_v3_null_context_witness :
  runTool_v3 (ex_v3_world bridge_ok) (system_ctx (ex_v3_world bridge_ok) (ex_sys_msgs "null"))
    (JStr "get_courses") (JObj []) st_init
  = (Throw null_courses_error, st_init).
Proof.
  apply (runTool_v3_null_context (ex_v3_world bridge_ok) (ex_sys_msgs "null") "null"
           (JObj []) st_init).
  - reflexivity.
  - apply String.eqb_neq. reflexivity.
  - vm_compute. reflexivity.
Defined.


(** ** The hidden block on one line *)

Lemma no_ctrl_app (a b : string) : no_ctrl (a ++ b) = no_ctrl a && no_ctrl b.
Proof. induction a as [|c a IH]; simpl; [reflexivity|]. rewrite IH. apply andb_assoc. Qed.

Lemma no_ctrl_uint (u : Decimal.uint) : no_ctrl (NilEmpty.string_of_uint u) = true.
Proof. induction u; simpl; auto. Qed.

Lemma no_ctrl_Z_to_string (n : Z) : no_ctrl (Z_to_string n) = true.
Proof.
  unfold Z_to_string. destruct (Z.to_int n) as [u|u]; simpl; apply no_ctrl_uint.
Qed.

Lemma nat_of_ascii_of_small (k : nat) : k < 256 -> nat_of_ascii (ascii_of_nat k) = k.
Proof. apply nat_ascii_embedding. Qed.

Lemma hex_digit_code (n : nat) : n < 16 -> 32 <= nat_of_ascii (hex_digit n).
Proof.
  intros Hn. unfold hex_digit. destruct (Nat.ltb n 10);
    rewrite nat_of_ascii_of_small by lia; lia.
Qed.

Lemma no_ctrl_escape_char (c : ascii) : no_ctrl (escape_char c) = true.
Proof.
  unfold escape_char.
  destruct (Nat.eqb (nat_of_ascii c) 34); [reflexivity|].
  destruct (Nat.eqb (nat_of_ascii c) 92); [reflexivity|].
  destruct (Nat.eqb (nat_of_ascii c) 8); [reflexivity|].
  destruct (Nat.eqb (nat_of_ascii c) 12); [reflexivity|].
  destruct (Nat.eqb (nat_of_ascii c) 10); [reflexivity|].
  destruct (Nat.eqb (nat_of_ascii c) 13); [reflexivity|].
  destruct (Nat.eqb (nat_of_ascii c) 9); [reflexivity|].
  destruct (Nat.ltb (nat_of_ascii c) 32) eqn:Hl.
  - apply Nat.ltb_lt in Hl. rewrite no_ctrl_app. cbn [no_ctrl].
    assert (H1 : 32 <= nat_of_ascii (hex_digit (nat_of_ascii c / 16)))
      by (apply hex_digit_code; apply Nat.Div0.div_lt_upper_bound; lia).
    assert (H2 : 32 <= nat_of_ascii (hex_digit (nat_of_ascii c mod 16)))
      by (apply hex_digit_code; apply Nat.mod_upper_bound; lia).
    apply Nat.leb_le in H1, H2. rewrite H1, H2. reflexivity.
  - apply Nat.ltb_ge in Hl. cbn [no_ctrl]. apply Nat.leb_le in Hl. rewrite Hl. reflexivity.
Qed.

Lemma no_ctrl_escape_string (s : string) : no_ctrl (escape_string s) = true.
Proof.
  induction s as [|c s IH]; [reflexivity|]. cbn [escape_string].
  rewrite no_ctrl_app, no_ctrl_escape_char, IH. reflexivity.
Qed.

Lemma no_ctrl_quote (s : string) : no_ctrl (quote s) = true.
Proof.
  unfold quote. cbn [no_ctrl]. rewrite no_ctrl_app, no_ctrl_escape_string. reflexivity.
Qed.

Lemma no_ctrl_join (sep : string) (l : list string) :
  no_ctrl sep = true -> Forall (fun s => no_ctrl s = true) l -> no_ctrl (join sep l) = true.
Proof.
  intros Hs Hl. induction Hl as [|x l Hx Hl IH]; [reflexivity|].
  destruct l as [|y l]; [exact Hx|].
  change (join sep (x :: y :: l)) with (x ++ sep ++ join sep (y :: l)).
  rewrite !no_ctrl_app, Hx, Hs, IH. reflexivity.
Qed.

Lemma no_ctrl_stringify (v : json) : no_ctrl (stringify v) = true.
Proof.
  revert v. fix IH 1. intros v. destruct v as [|b|n|s|items|fs].
  - reflexivity.
  - destruct b; reflexivity.
  - apply no_ctrl_Z_to_string.
  - apply no_ctrl_quote.
  - cbn [stringify]. rewrite !no_ctrl_app. cbn [no_ctrl].
    rewrite no_ctrl_join; [reflexivity|reflexivity|].
    induction items as [|x items IHi]; constructor; [apply IH|exact IHi].
  - cbn [stringify]. rewrite !no_ctrl_app. cbn [no_ctrl].
    rewrite no_ctrl_join; [reflexivity|reflexivity|].
    induction fs as [|[k x] fs IHf]; constructor; [|exact IHf].
    cbn [fst snd]. rewrite !no_ctrl_app, no_ctrl_quote, IH. reflexivity.
Qed.

Lemma no_ctrl_char_free (s : string) : no_ctrl s = true -> char_free LF s = true.
Proof.
  induction s as [|c s IH]; intros H; [reflexivity|].
  cbn [no_ctrl] in H. apply andb_prop in H as [Hc Hs].
  rewrite char_free_cons, IH by exact Hs. rewrite andb_true_r.
  destruct (Ascii.eqb LF c) eqn:E; [|reflexivity].
  apply Ascii.eqb_eq in E. subst c. discriminate.
Qed.

(** The hidden block: [JSON.stringify] writes no control character, so
    the block of the step-executor revision is exactly three lines: the
    opening marker, the JSON of the logs, and the closing marker. *)
Theorem hidden_block_three_lines (tl : list tool_log_entry) (sl : list step_log_entry) :
  no_ctrl (logs_text tl sl) = true
  /\ lines_of (hidden_block tl sl) = (["<!--CONTEXT"; logs_text tl sl], "CONTEXT-->").
Proof.
  assert (H : no_ctrl (logs_text tl sl) = true) by apply no_ctrl_stringify.
  split; [exact H|].
  change (hidden_block tl sl)
    with ("<!--CONTEXT" ++ String LF (logs_text tl sl ++ String LF "CONTEXT-->")).
  rewrite (lines_of_line "<!--CONTEXT" _ eq_refl).
  rewrite (lines_of_line (logs_text tl sl) _ (no_ctrl_char_free _ H)).
  reflexivity.
Qed.

(** ** The client's rendering *)

Lemma str_rev_app (a b : string) : str_rev (a ++ b) = str_rev b ++ str_rev a.
Proof.
  induction a as [|x a IH]; simpl; [now rewrite str_app_nil_r|].
  rewrite IH. symmetry. apply str_app_assoc.
Qed.

Lemma str_rev_involutive (s : string) : str_rev (str_rev s) = s.
Proof.
  induction s as [|x s IH]; simpl; [reflexivity|].
  rewrite str_rev_app. simpl. now rewrite IH.
Qed.

Lemma trim_start_head (s : string) (c : ascii) (r : string) :
  trim_start s = String c r -> js_is_space c = false.
Proof.
  induction s as [|x s IH]; simpl; [discriminate|].
  destruct (js_is_space x) eqn:E; [exact IH|]. intros H. injection H as <- _. exact E.
Qed.

Lemma trim_start_suffix (s : string) : exists p, s = p ++ trim_start s.
Proof.
  induction s as [|x s [p Hp]]; simpl; [exists ""; reflexivity|].
  destruct (js_is_space x); [exists (String x p); simpl; congruence|exists ""; reflexivity].
Qed.

Lemma js_trim_ends (s : string) :
  (forall c rest, js_trim s = String c rest -> js_is_space c = false)
  /\ (forall c front, js_trim s = front ++ String c "" -> js_is_space c = false).
Proof.
  unfold js_trim. set (t := trim_start s). set (v := trim_start (str_rev t)). split.
  - intros c rest H.
    destruct (trim_start_suffix (str_rev t)) as [p Hp]. fold v in Hp.
    assert (Ht : t = str_rev v ++ str_rev p).
    { rewrite <- (str_rev_involutive t), Hp, str_rev_app. reflexivity. }
    rewrite H in Ht. exact (trim_start_head s c (rest ++ str_rev p) Ht).
  - intros c front H.
    assert (Hv : v = String c (str_rev front)).
    { rewrite <- (str_rev_involutive v), H, str_rev_app. reflexivity. }
    exact (trim_start_head _ c _ Hv).
Qed.

(** The client's rendering of a message (ChatMessage) never starts or
    ends with white space. *)
Theorem chat_display_trimmed (content : string) :
  (forall c rest, chat_display content = String c rest -> js_is_space c = false)
  /\ (forall c front, chat_display content = front ++ String c "" -> js_is_space c = false).
Proof. apply js_trim_ends. Qed.

(** ** The extractors of the revisions *)

(** [firstJson] (first and third revisions) and [firstObject] (second
    revision) return the same result on every text: the guard
    [start >= 0] of [firstObject] never changes the outcome. *)
Theorem extractors_agree (s : string) : firstJson s = firstObject s.
Proof. symmetry. apply firstObject_firstJson. Qed.

(** ** Streamed replies: the last line *)

Lemma drop_cr_free (l : string) : char_free CR l = true -> drop_cr l = l.
Proof.
  induction l as [|c l IH]; intros H; [reflexivity|].
  rewrite char_free_cons in H. apply andb_prop in H as [Hc Hl].
  destruct l as [|d l'].
  - cbn [drop_cr]. rewrite Ascii.eqb_sym. destruct (Ascii.eqb CR c); [discriminate|reflexivity].
  - change (drop_cr (String c (String d l'))) with (String c (drop_cr (String d l'))).
    rewrite IH by exact Hl. reflexivity.
Qed.

(** [streamLLM]: a last line without a line break (and without [\r]) is
    still read, by the flush after the loop: the body behaves as if it
    ended with a line break. *)
Theorem streamLLM_last_line_unterminated (parse : string -> option json)
    (chunks : list string) (pre l : string) :
  (pre = "" \/ exists p, pre = p ++ nl) ->
  char_free LF l = true -> char_free CR l = true ->
  concat_all chunks = pre ++ l ->
  streamLLM_deltas parse chunks = streamLLM_deltas parse [pre ++ l ++ nl].
Proof.
  intros Hpre Hl Hc Hcat. destruct (lines_of_terminated pre Hpre) as [lp Hlp].
  unfold streamLLM_deltas. rewrite (sse_go_concat parse "" chunks eq_refl), Hcat.
  rewrite ?str_app_nil_l. rewrite !sse_go_one.
  rewrite (lines_of_app_rest pre l lp "" Hlp). rewrite ?str_app_nil_l.
  rewrite (lines_of_nolf l Hl). cbn [fst snd]. rewrite app_nil_r.
  rewrite (after_lines pre l nl lp Hlp).
  change nl with (String LF "").
  rewrite <- (str_app_nil_r l) at 1. rewrite str_app_nil_r.
  rewrite (lines_of_line l "" Hl). cbn [fst snd lines_of].
  rewrite map_app, sse_lines_app.
  destruct (sse_lines parse (map drop_cr lp)) as [da sa].
  destruct sa; [reflexivity|].
  cbn [map]. rewrite (drop_cr_free l Hc). cbn [sse_lines sse_go]. unfold sse_flush.
  destruct (prefix data_prefix l); [|rewrite !app_nil_r; reflexivity].
  destruct (String.eqb (js_trim (str_drop 6 l)) "[DONE]"); [rewrite !app_nil_r; reflexivity|].
  rewrite !app_nil_r. reflexivity.
Qed.

(** A concrete run. *)
Lemma streamLLM_last_line_unterminated_witness :
  streamLLM_deltas ex_sse_parse ["data: A" ++ nl ++ "data: B"]
  = streamLLM_deltas ex_sse_parse ["data: A" ++ nl ++ "data: B" ++ nl]
  /\ streamLLM_deltas ex_sse_parse ["data: A" ++ nl ++ "data: B"] = [JStr "Hel"; JStr "lo"].
Proof.
  split; [|vm_compute; reflexivity].
  apply (streamLLM_last_line_unterminated ex_sse_parse _ ("data: A" ++ nl) "data: B").
  - right. exists "data: A". reflexivity.
  - reflexivity.
  - reflexivity.
  - reflexivity.
Defined.
